(** * dspy-llm-evaluator: traffic-light scoring and evaluation orchestration

    A shallow embedding of [evaluator/scoring.py], [evaluator/pipeline.py]
    and the four metrics of [evaluator/metrics/], with the properties the
    specification states about them.

    Python values are a small tagged union, floats are the kernel's
    binary64 floats (so NaN behaves as it does in Python), exceptions are
    values of an error monad, pandas rows are finite maps keyed by column
    label and dictionaries are insertion-ordered association lists. *)

From Stdlib Require Import Floats ZArith Ascii String List Bool.
From stdpp Require Import gmap strings list fin_maps.

Set Warnings "-inexact-float".
Local Open Scope string_scope.

(** ** Python values *)

(** The values that occur in metric results and in result tables: [None],
    booleans, floats (a missing table cell is the float NaN), strings and
    lists of strings (the [errors] cell).  Integer cells (an [id] column) are
    never read by the scorer and are left out. *)
Inductive pyval : Type :=
| PyNone
| PyBool (b : bool)
| PyFloat (f : float)
| PyStr (s : string)
| PyList (l : list string).

Definition PyNaN : pyval := PyFloat nan.

(** [bool(x)]: the truth value Python gives an object in [if x] and [not x].
    A float is false only when it equals zero, so NaN is true. *)
Definition truthy (x : pyval) : bool :=
  match x with
  | PyNone => false
  | PyBool b => b
  | PyFloat f => negb (PrimFloat.eqb f 0%float)
  | PyStr s => negb (String.eqb s "")
  | PyList l => match l with [] => false | _ => true end
  end.

(** [type(x).__name__], as it appears in the messages of [TypeError]. *)
Definition type_name (x : pyval) : string :=
  match x with
  | PyNone => "NoneType"
  | PyBool _ => "bool"
  | PyFloat _ => "float"
  | PyStr _ => "str"
  | PyList _ => "list"
  end.

(** [s == x] for a string [s]: only an equal string compares equal. *)
Definition str_eq_val (s : string) (x : pyval) : bool :=
  match x with
  | PyStr t => String.eqb s t
  | _ => false
  end.

(** [s in l] for a string [s] and a list [l]. *)
Definition str_in (s : string) (l : list pyval) : bool :=
  existsb (str_eq_val s) l.

(** ** Exceptions *)

(** The subclasses of [Exception] the modelled code raises itself, and
    [OtherException] for whatever an external collaborator raises.  [str e]
    is the message. *)
Inductive exn : Type :=
| ValueError (msg : string)
| TypeError (msg : string)
| KeyError (msg : string)
| AttributeError (msg : string)
| OverflowError (msg : string)
| ZeroDivisionError (msg : string)
| OtherException (msg : string).

Definition str_exn (e : exn) : string :=
  match e with
  | ValueError m | TypeError m | KeyError m | AttributeError m
  | OverflowError m | ZeroDivisionError m | OtherException m => m
  end.

(** A computation that returns a value or raises. *)
Inductive res (A : Type) : Type :=
| Ok (a : A)
| Raise (e : exn).
Arguments Ok {A} a.
Arguments Raise {A} e.

#[global] Instance res_ret : MRet res := λ A a, Ok a.
#[global] Instance res_bind : MBind res := λ A B f m,
  match m with
  | Ok a => f a
  | Raise e => Raise e
  end.

(** [for x in l: ...] threading a state through the elements of [l]; the
    first exception ends the loop.  (The loop that collects one result per
    element is stdpp's [mapM].) *)
Fixpoint foldlM {M : Type → Type} `{!MBind M, !MRet M} {A S}
    (f : S → A → M S) (s : S) (l : list A) : M S :=
  match l with
  | [] => mret s
  | x :: l' => s' ← f s x; foldlM f s' l'
  end.

(** ** Strings *)

(** [s.endswith(suf)]: some tail of [s] is [suf]. *)
Fixpoint endswith (s suf : string) : bool :=
  String.eqb s suf ||
  match s with
  | EmptyString => false
  | String _ s' => endswith s' suf
  end.

(** [s.replace(old, new)] for a non-empty [old]: occurrences are replaced
    left to right and do not overlap.  [skip] counts the characters of an
    occurrence still to be dropped. *)
Fixpoint replace_from (old new : string) (skip : nat) (s : string) : string :=
  match s with
  | EmptyString => EmptyString
  | String c s' =>
      match skip with
      | S k => replace_from old new k s'
      | O =>
          if String.prefix old s
          then new +:+ replace_from old new (String.length old - 1) s'
          else String c (replace_from old new 0 s')
      end
  end.

Definition str_replace (s old new : string) : string := replace_from old new 0 s.

(** [str.isspace] on one character.  A character stands for a code point
    below 256: tab to carriage return, the four separators 28-31, space,
    next-line (133) and no-break space (160). *)
Definition isspace (c : ascii) : bool :=
  let n := nat_of_ascii c in
  ((9 <=? n) && (n <=? 13) || (28 <=? n) && (n <=? 32)
   || (n =? 133) || (n =? 160))%nat.

Fixpoint lstrip (s : string) : string :=
  match s with
  | EmptyString => EmptyString
  | String c s' => if isspace c then lstrip s' else s
  end.

Fixpoint rstrip (s : string) : string :=
  match s with
  | EmptyString => EmptyString
  | String c s' =>
      let t := rstrip s' in
      if isspace c && String.eqb t "" then "" else String c t
  end.

(** [s.strip()] *)
Definition strip (s : string) : string := rstrip (lstrip s).

(** [re.sub(r"\s+", " ", s)]: every maximal run of whitespace becomes one
    space.  [in_run] tells whether the previous character was whitespace. *)
Fixpoint collapse_ws (in_run : bool) (s : string) : string :=
  match s with
  | EmptyString => EmptyString
  | String c s' =>
      if isspace c
      then (if in_run then collapse_ws true s' else String " " (collapse_ws true s'))
      else String c (collapse_ws false s')
  end.

(** ** Numbers *)

Definition int_to_spec (z : Z) : spec_float :=
  match z with
  | Z0 => S754_zero false
  | Zpos p => S754_finite false p 0
  | Zneg p => S754_finite true p 0
  end.

(** [a / b] on Python integers: the correctly rounded quotient as a float,
    [ZeroDivisionError] on a zero divisor and [OverflowError] when the
    quotient is beyond the range of a float. *)
Definition int_true_div (a b : Z) : res float :=
  if (b =? 0)%Z then Raise (ZeroDivisionError "division by zero")
  else
    match SFdiv prec emax (int_to_spec a) (int_to_spec b) with
    | S754_infinity _ =>
        Raise (OverflowError "integer division result too large for a float")
    | q => Ok (SF2Prim q)
    end.

(** ** scoring.py: [TrafficLightScorer] *)

Record TrafficLightScorer : Type := {
  rouge_thresholds : float * float;
  other_thresholds : float * float;
  missing_eval_threshold : float
}.

(** The defaults of [__init__]. *)
Definition default_scorer : TrafficLightScorer :=
  {| rouge_thresholds := (0.4, 0.5)%float;
     other_thresholds := (0.4, 0.7)%float;
     missing_eval_threshold := 0.05%float |}.

(** [score_to_status]: toxicity is green from 1.0 on and red below; any
    other metric is compared with the lower, then the upper threshold of its
    pair, and is green when neither comparison holds. *)
Definition score_to_status (self : TrafficLightScorer)
    (score : float) (metric_name : string) : string :=
  if String.eqb metric_name "toxicity" then
    if (1 <=? score)%float then "green" else "red"
  else
    let '(lower, upper) :=
      if String.eqb metric_name "rouge"
      then rouge_thresholds self else other_thresholds self in
    if (score <? lower)%float then "red"
    else if (score <? upper)%float then "yellow"
    else "green".

(** [compute_overall_status].  [statuses] may hold any values; only those
    equal to the strings "red" and "yellow" are looked for.  The division is
    evaluated only when [total_evals > 0]. *)
Definition compute_overall_status (self : TrafficLightScorer)
    (statuses : list pyval) (missing_evals total_evals : Z) : res string :=
  match statuses with
  | [] => Ok "red"
  | _ =>
      too_many ←
        (if (0 <? total_evals)%Z
         then ratio ← int_true_div missing_evals total_evals;
              Ok (missing_eval_threshold self <? ratio)%float
         else Ok false);
      if too_many : bool then
        if str_in "red" statuses then Ok "red" else Ok "yellow"
      else if str_in "red" statuses then Ok "red"
      else if str_in "yellow" statuses then Ok "yellow"
      else Ok "green"
  end.

(** *** Tables

    A pandas [Series] is an index of labels with a value per label; a
    [DataFrame] is a list of column labels with one value map per row.  A
    label with no entry in a row's map is a missing cell, which pandas fills
    with NaN when it builds a frame from dictionaries with different keys.
    Column labels are taken to be distinct, as they are when a frame is
    built from dictionaries. *)

Definition cell (values : gmap string pyval) (label : string) : pyval :=
  default PyNaN (values !! label).

Record Series : Type := {
  index : list string;
  values : gmap string pyval
}.

Record DataFrame : Type := {
  columns : list string;
  rows : list (gmap string pyval)
}.

(** [df[col]] *)
Definition get_column (df : DataFrame) (col : string) : list pyval :=
  map (λ r, cell r col) (rows df).

(** [df[col] = vals]: an existing column is overwritten in place, a new one
    is added after the others. *)
Definition set_column (df : DataFrame) (col : string) (vals : list pyval)
    : DataFrame :=
  {| columns := if bool_decide (col ∈ columns df) then columns df
                else (columns df ++ [col])%list;
     rows := zip_with (λ r v, <[col := v]> r) (rows df) vals |}.

(** [lambda x: self.score_to_status(x, metric_name)] on a cell: a float is
    classified, a boolean compares as 1.0 or 0.0, and anything else makes
    the first comparison raise. *)
Definition status_of_cell (self : TrafficLightScorer) (metric_name : string)
    (x : pyval) : res pyval :=
  match x with
  | PyFloat f => Ok (PyStr (score_to_status self f metric_name))
  | PyBool b =>
      Ok (PyStr (score_to_status self (if b then 1 else 0)%float metric_name))
  | _ =>
      Raise (TypeError
        ("'" +:+ (if String.eqb metric_name "toxicity" then ">=" else "<")
         +:+ "' not supported between instances of '" +:+ type_name x
         +:+ "' and 'float'"))
  end.

(** [compute_row_status]: the statuses are the cells of the labels that end
    in [_status]; a true [toxicity_is_toxic] cell decides before they are
    looked at. *)
Definition compute_row_status (self : TrafficLightScorer) (row : Series)
    : res string :=
  let status_cols := List.filter (λ col, endswith col "_status") (index row) in
  let statuses := map (cell (values row)) status_cols in
  if bool_decide ("toxicity_is_toxic" ∈ index row)
     && truthy (cell (values row) "toxicity_is_toxic")
  then Ok "red"
  else compute_overall_status self statuses 0 0.

(** One iteration of [for col in df.columns] in [score_results]. *)
Definition score_column (self : TrafficLightScorer) (df : DataFrame)
    (col : string) : res DataFrame :=
  if endswith col "_score" then
    let metric_name := str_replace col "_score" "" in
    let status_col := metric_name +:+ "_status" in
    vals ← mapM (status_of_cell self metric_name) (get_column df col);
    Ok (set_column df status_col vals)
  else Ok df.

(** [score_results]: the loop runs over the columns the table has on
    entry; the toxicity status, when there is a [toxicity_is_toxic] column,
    overwrites the one the loop derived from [toxicity_score]; the overall
    status comes last. *)
Definition score_results (self : TrafficLightScorer) (results_df : DataFrame)
    : res DataFrame :=
  df ← foldlM (score_column self) results_df (columns results_df);
  let df :=
    if bool_decide ("toxicity_is_toxic" ∈ columns df)
    then set_column df "toxicity_status"
           (map (λ x, PyStr (if truthy x then "red" else "green"))
                (get_column df "toxicity_is_toxic"))
    else df in
  overall ← mapM (λ r, s ← compute_row_status self
                              {| index := columns df; values := r |};
                       Ok (PyStr s)) (rows df);
  Ok (set_column df "overall_status" overall).

(** ** Dictionaries *)

(** A Python [dict] with string keys, in insertion order. *)
Definition dict : Type := list (string * pyval).

(** [d[k] = v]: an existing key keeps its place, a new one goes last. *)
Fixpoint dict_set (d : dict) (k : string) (v : pyval) : dict :=
  match d with
  | [] => [(k, v)]
  | (k', v') :: d' =>
      if String.eqb k' k then (k', v) :: d' else (k', v') :: dict_set d' k v
  end.

Fixpoint dict_get (d : dict) (k : string) : option pyval :=
  match d with
  | [] => None
  | (k', v') :: d' => if String.eqb k' k then Some v' else dict_get d' k
  end.

(** [d[k]] *)
Definition dict_getitem (d : dict) (k : string) : res pyval :=
  match dict_get d k with
  | Some v => Ok v
  | None => Raise (KeyError ("'" +:+ k +:+ "'"))
  end.

Definition dict_keys (d : dict) : list string := map fst d.

(** ** Calls to external collaborators *)

(** The metrics delegate to collaborators outside the repository: the DSPy
    programs, which query a language model, and the rouge package.  A
    computation carries the list of the calls it made to them, in order,
    next to its outcome. *)
Record call : Type := Call {
  callee : string;
  call_args : list pyval
}.

Definition traced (A : Type) : Type := list call * res A.

#[global] Instance traced_ret : MRet traced := λ A a, ([], Ok a).
#[global] Instance traced_bind : MBind traced := λ A B f m,
  match m with
  | (t, Ok a) => let '(t', r) := f a in ((t ++ t')%list, r)
  | (t, Raise e) => (t, Raise e)
  end.

(** A step that calls no collaborator. *)
Definition pure_step {A} (r : res A) : traced A := ([], r).

(** A call to the collaborator [name] whose outcome is [r]. *)
Definition invoke {A} (name : string) (args : list pyval) (r : res A)
    : traced A :=
  ([Call name args], r).

(** [try: body / except Exception as e: handler e] *)
Definition try_except {A} (body : traced A) (handler : exn → traced A)
    : traced A :=
  match body with
  | (t, Ok a) => (t, Ok a)
  | (t, Raise e) => let '(t', r) := handler e in ((t ++ t')%list, r)
  end.

(** What the collaborators answer.  The programs return a result dictionary
    or raise; [rouge_get_scores] stands for
    [self.rouge.get_scores(response, reference)[0]] read at the three keys
    [rouge-1], [rouge-2], [rouge-l] and their [f] entries; [format_3f]
    is the format specification [:.3f]. *)
Record Collaborators : Type := {
  relevancy_program : pyval → pyval → res dict;
  correctness_program : pyval → pyval → pyval → res dict;
  toxicity_program : pyval → res dict;
  rouge_get_scores : string → string → res (float * float * float);
  format_3f : float → string
}.

(** ** metrics/base.py *)

Definition validate_inputs (question response reference : pyval) : res unit :=
  match question with
  | PyStr q =>
      if String.eqb (strip q) ""
      then Raise (ValueError "Question must be a non-empty string")
      else
        match response with
        | PyStr _ =>
            match reference with
            | PyNone | PyStr _ => Ok tt
            | _ => Raise (ValueError "Reference must be a string or None")
            end
        | _ => Raise (ValueError "Response must be a string")
        end
  | _ => Raise (ValueError "Question must be a non-empty string")
  end.

(** [x.strip()] *)
Definition py_strip (x : pyval) : res pyval :=
  match x with
  | PyStr s => Ok (PyStr (strip s))
  | _ =>
      Raise (AttributeError
        ("'" +:+ type_name x +:+ "' object has no attribute 'strip'"))
  end.

Record Metric : Type := {
  name : string;
  evaluate : pyval → pyval → pyval → traced dict
}.

(** [name or self.__class__.__name__.lower().replace("metric", "")], with
    [cls] the lower-cased class name. *)
Definition metric_name_or (given : option string) (cls : string) : string :=
  match given with
  | Some n => if String.eqb n "" then str_replace cls "metric" "" else n
  | None => str_replace cls "metric" ""
  end.

(** ** metrics/relevancy.py *)

Definition RelevancyMetric_evaluate (ext : Collaborators)
    (question response reference : pyval) : traced dict :=
  pure_step (validate_inputs question response PyNone);;
  stripped ← pure_step (py_strip response);
  if negb (truthy stripped) then
    mret [("score", PyFloat 0); ("explanation", PyStr "Empty response")]
  else
    try_except
      (invoke "RelevancyProgram" [question; response]
         (relevancy_program ext question response))
      (λ e, mret [("score", PyFloat 0);
                  ("explanation",
                   PyStr ("Error evaluating relevancy: " +:+ str_exn e))]).

(** ** metrics/correctness.py *)

Definition CorrectnessMetric_evaluate (ext : Collaborators)
    (question response reference : pyval) : traced dict :=
  pure_step (validate_inputs question response reference);;
  if negb (truthy reference) then
    mret [("score", PyFloat 0);
          ("explanation",
           PyStr "Cannot evaluate correctness without a reference answer")]
  else
    stripped ← pure_step (py_strip response);
    if negb (truthy stripped) then
      mret [("score", PyFloat 0); ("explanation", PyStr "Empty response")]
    else
      try_except
        (invoke "CorrectnessProgram" [question; response; reference]
           (correctness_program ext question response reference))
        (λ e, mret [("score", PyFloat 0);
                    ("explanation",
                     PyStr ("Error evaluating correctness: " +:+ str_exn e))]).

(** ** metrics/toxicity.py *)

Definition ToxicityMetric_evaluate (ext : Collaborators)
    (question response reference : pyval) : traced dict :=
  pure_step (validate_inputs question response PyNone);;
  stripped ← pure_step (py_strip response);
  if negb (truthy stripped) then
    mret [("is_toxic", PyBool false);
          ("explanation", PyStr "Empty response");
          ("toxicity_type", PyStr "none");
          ("score", PyFloat 1)]
  else
    try_except
      (result ← invoke "ToxicityProgram" [response]
                  (toxicity_program ext response);
       is_toxic ← pure_step (dict_getitem result "is_toxic");
       mret (dict_set result "score"
               (PyFloat (if truthy is_toxic then 0 else 1))))
      (λ e, mret [("is_toxic", PyBool false);
                  ("explanation",
                   PyStr ("Error evaluating toxicity: " +:+ str_exn e));
                  ("toxicity_type", PyStr "error");
                  ("score", PyFloat 1)]).

(** ** metrics/rouge.py *)

(** [re.sub(r"\s+", " ", text).strip()] *)
Definition clean_text (text : pyval) : res string :=
  match text with
  | PyStr s => Ok (strip (collapse_ws false s))
  | _ => Raise (TypeError "expected string or bytes-like object")
  end.

Definition RougeMetric_evaluate (ext : Collaborators)
    (question response reference : pyval) : traced dict :=
  pure_step (validate_inputs question response reference);;
  if negb (truthy reference) then
    mret [("score", PyFloat 0);
          ("explanation",
           PyStr "Cannot calculate ROUGE score without a reference answer")]
  else
    stripped ← pure_step (py_strip response);
    if negb (truthy stripped) then
      mret [("score", PyFloat 0); ("explanation", PyStr "Empty response")]
    else
      try_except
        (response_clean ← pure_step (clean_text response);
         reference_clean ← pure_step (clean_text reference);
         '(rouge_1_f, rouge_2_f, rouge_l_f) ←
           invoke "Rouge.get_scores"
             [PyStr response_clean; PyStr reference_clean]
             (rouge_get_scores ext response_clean reference_clean);
         let avg_f1 := ((rouge_1_f + rouge_2_f + rouge_l_f) / 3)%float in
         let explanation :=
           "ROUGE-1 F1: " +:+ format_3f ext rouge_1_f +:+ ", "
           +:+ "ROUGE-2 F1: " +:+ format_3f ext rouge_2_f +:+ ", "
           +:+ "ROUGE-L F1: " +:+ format_3f ext rouge_l_f +:+ ". "
           +:+ "Average F1: " +:+ format_3f ext avg_f1 +:+ "." in
         mret [("score", PyFloat avg_f1);
               ("rouge_1_f", PyFloat rouge_1_f);
               ("rouge_2_f", PyFloat rouge_2_f);
               ("rouge_l_f", PyFloat rouge_l_f);
               ("explanation", PyStr explanation)])
        (λ e, mret [("score", PyFloat 0);
                    ("explanation",
                     PyStr ("Error calculating ROUGE score: " +:+ str_exn e))]).

(** The four metric objects, under their default names. *)
Definition RelevancyMetric (ext : Collaborators) : Metric :=
  {| name := metric_name_or None "relevancymetric";
     evaluate := RelevancyMetric_evaluate ext |}.
Definition CorrectnessMetric (ext : Collaborators) : Metric :=
  {| name := metric_name_or None "correctnessmetric";
     evaluate := CorrectnessMetric_evaluate ext |}.
Definition RougeMetric (ext : Collaborators) : Metric :=
  {| name := metric_name_or None "rougemetric";
     evaluate := RougeMetric_evaluate ext |}.
Definition ToxicityMetric (ext : Collaborators) : Metric :=
  {| name := metric_name_or None "toxicitymetric";
     evaluate := ToxicityMetric_evaluate ext |}.

(** ** pipeline.py: [EvaluationPipeline.evaluate_single] *)

(** [for key, value in metric_result.items():
       results[f"{metric.name}_{key}"] = value] *)
Definition merge_result (metric_name : string) (results metric_result : dict)
    : dict :=
  fold_left (λ acc kv, dict_set acc (metric_name +:+ "_" +:+ kv.1) kv.2)
            metric_result results.

(** The body of [for metric in self.metrics], on the pair of [results] and
    [errors]. *)
Definition apply_metric (question response reference : pyval)
    (state : dict * list string) (metric : Metric)
    : traced (dict * list string) :=
  let '(results, errors) := state in
  try_except
    (metric_result ← evaluate metric question response reference;
     mret (merge_result (name metric) results metric_result, errors))
    (λ e, mret (results,
                (errors ++ [name metric +:+ ": " +:+ str_exn e])%list)).

(** [evaluate_single]: the [errors] entry is added only when some metric
    raised. *)
Definition evaluate_single (metrics : list Metric)
    (question response reference : pyval) : traced dict :=
  '(results, errors) ←
    foldlM (apply_metric question response reference) ([], []) metrics;
  mret (match errors with
        | [] => results
        | _ => dict_set results "errors" (PyList errors)
        end).

(** ** Reference definitions from the specification *)

(** The specification's [compute_overall_status], clause by clause: no
    statuses give red; too large a share of missing evaluations caps the
    verdict at yellow; otherwise the weakest status decides. *)
Definition too_many_missing (self : TrafficLightScorer)
    (missing_evals total_evals : Z) : res bool :=
  if (total_evals >? 0)%Z then
    ratio ← int_true_div missing_evals total_evals;
    Ok (PrimFloat.ltb (missing_eval_threshold self) ratio)
  else Ok false.

Definition any_status (s : string) (statuses : list pyval) : bool :=
  negb (forallb (λ x, negb (str_eq_val s x)) statuses).

Definition compute_overall_status_ref (self : TrafficLightScorer)
    (statuses : list pyval) (missing_evals total_evals : Z) : res string :=
  if Nat.eqb (length statuses) 0 then Ok "red"
  else
    capped ← too_many_missing self missing_evals total_evals;
    Ok (if capped : bool then
          if any_status "red" statuses then "red" else "yellow"
        else
          if any_status "red" statuses then "red"
          else if any_status "yellow" statuses then "yellow"
          else "green").

(** The specification's [score_to_status]: toxicity is binary; any other
    metric is red below [low], yellow from [low] up to [high] and green from
    [high] on.  A score that meets none of the three conditions has no
    status. *)
Definition score_to_status_ref (self : TrafficLightScorer)
    (score : float) (metric_name : string) : option string :=
  if String.eqb metric_name "toxicity" then
    Some (if (1 <=? score)%float then "green" else "red")
  else
    let '(low, high) :=
      if String.eqb metric_name "rouge"
      then rouge_thresholds self else other_thresholds self in
    if (score <? low)%float then Some "red"
    else if (low <=? score)%float && (score <? high)%float then Some "yellow"
    else if (high <=? score)%float then Some "green"
    else None.

(** No threshold of the scorer is NaN. *)
Definition thresholds_are_numbers (self : TrafficLightScorer) : Prop :=
  is_nan (rouge_thresholds self).1 = false ∧
  is_nan (rouge_thresholds self).2 = false ∧
  is_nan (other_thresholds self).1 = false ∧
  is_nan (other_thresholds self).2 = false.

(** ** [score_results] seen row by row

    [score_results] works column by column; its effect on a table is the
    effect on each row of the functions below, which the properties are
    proved through. *)

(** The last character of a string, to tell labels apart by their ending. *)
Fixpoint last_char (s : string) : option ascii :=
  match s with
  | EmptyString => None
  | String c s' => match last_char s' with None => Some c | last => last end
  end.

(** The status column that [score_results] derives from a score column. *)
Definition status_col (col : string) : string :=
  str_replace col "_score" "" +:+ "_status".

(** [columns] after [df[col] = ...]. *)
Definition add_column (cols : list string) (col : string) : list string :=
  if bool_decide (col ∈ cols) then cols else (cols ++ [col])%list.

(** What one iteration of the loop over the columns does to the column
    labels and to one row. *)
Definition columns_after_score (cols : list string) (col : string)
    : list string :=
  if endswith col "_score" then add_column cols (status_col col) else cols.

Definition row_score_column (self : TrafficLightScorer)
    (r : gmap string pyval) (col : string) : res (gmap string pyval) :=
  if endswith col "_score" then
    v ← status_of_cell self (str_replace col "_score" "") (cell r col);
    Ok (<[status_col col := v]> r)
  else Ok r.

(** The toxicity step and the overall step on one row; neither can raise. *)
Definition row_toxicity (cols : list string) (r : gmap string pyval)
    : gmap string pyval :=
  if bool_decide ("toxicity_is_toxic" ∈ cols)
  then <["toxicity_status" :=
           PyStr (if truthy (cell r "toxicity_is_toxic")
                  then "red" else "green")]> r
  else r.

Definition overall_of (statuses : list pyval) : string :=
  match statuses with
  | [] => "red"
  | _ => if str_in "red" statuses then "red"
         else if str_in "yellow" statuses then "yellow"
         else "green"
  end.

Definition row_status (cols : list string) (r : gmap string pyval) : string :=
  if bool_decide ("toxicity_is_toxic" ∈ cols)
     && truthy (cell r "toxicity_is_toxic")
  then "red"
  else overall_of (map (cell r)
                     (List.filter (λ col, endswith col "_status") cols)).

Definition row_overall (cols : list string) (r : gmap string pyval)
    : gmap string pyval :=
  <["overall_status" := PyStr (row_status cols r)]> r.

(** A label of the form [m_status]. *)
Definition status_name (k : string) : Prop := ∃ m, k = m +:+ "_status".

(** [cols'] is [cols] followed by status labels only. *)
Definition extends (cols cols' : list string) : Prop :=
  ∃ new, cols' = (cols ++ new)%list ∧ Forall status_name new.

(** The statuses the loop writes for a row, in order. *)
Definition writes (self : TrafficLightScorer) (r : gmap string pyval)
    (cs : list string) : res (list (string * pyval)) :=
  mapM (λ c, v ← status_of_cell self (str_replace c "_score" "") (cell r c);
             Ok (status_col c, v)) cs.

Definition apply_writes (r : gmap string pyval) (W : list (string * pyval))
    : gmap string pyval :=
  foldl (λ m kv, <[kv.1 := kv.2]> m) r W.

(** ** Example tables and collaborators *)

(** A toxic row all of whose statuses are green: the ordinal combination of
    its statuses would be green, the row is red. *)
Definition all_green_toxic_row : Series :=
  {| index := ["relevancy_status"; "toxicity_is_toxic"; "rouge_status"];
     values := {[ "relevancy_status" := PyStr "green";
                  "toxicity_is_toxic" := PyBool true;
                  "rouge_status" := PyStr "green" ]} |}.

(** A table as [evaluate] hands it to the scorer: the relevancy metric
    raised on the first record and contributed nothing to its row. *)
Definition example_table : DataFrame :=
  {| columns := ["errors"; "toxicity_is_toxic"; "toxicity_score";
                 "relevancy_score"];
     rows := [ {[ "errors" := PyList ["relevancy: boom"];
                  "toxicity_is_toxic" := PyBool false;
                  "toxicity_score" := PyFloat 1 ]};
               {[ "toxicity_is_toxic" := PyBool false;
                  "toxicity_score" := PyFloat 1;
                  "relevancy_score" := PyFloat 0.5 ]} ] |}.

(** The same with the toxicity metric raising on the first record. *)
Definition toxicity_errored_table : DataFrame :=
  {| columns := ["relevancy_score"; "errors"; "toxicity_is_toxic";
                 "toxicity_score"];
     rows := [ {[ "relevancy_score" := PyFloat 0.9;
                  "errors" := PyList ["toxicity: boom"] ]};
               {[ "relevancy_score" := PyFloat 0.9;
                  "toxicity_is_toxic" := PyBool false;
                  "toxicity_score" := PyFloat 1 ]} ] |}.

(** The cell of row [i] and column [col] of a table, when there is one. *)
Definition table_cell (df : res DataFrame) (i : nat) (col : string)
    : option pyval :=
  match df with
  | Ok df => r ← rows df !! i; r !! col
  | Raise _ => None
  end.

(** [example_table] after scoring. *)
Definition example_scored : DataFrame :=
  Eval vm_compute in
    match score_results default_scorer example_table with
    | Ok scored => scored
    | Raise _ => example_table
    end.

(** Collaborators that are out of service: every call raises. *)
Definition unavailable : Collaborators :=
  {| relevancy_program := λ _ _, Raise (OtherException "service unavailable");
     correctness_program :=
       λ _ _ _, Raise (OtherException "service unavailable");
     toxicity_program := λ _, Raise (OtherException "service unavailable");
     rouge_get_scores := λ _ _, Raise (OtherException "service unavailable");
     format_3f := λ _, "" |}.


(** ** [evaluate_single] seen metric by metric *)

(** What [evaluate_single] is expected to assemble from the outcomes of the
    metrics: the calls they made, the merged results of those that
    returned, one error string per metric that raised. *)
Definition succeeds (question response reference : pyval) (m : Metric) : bool :=
  match (evaluate m question response reference).2 with
  | Ok _ => true
  | Raise _ => false
  end.

Definition calls_of (question response reference : pyval)
    (metrics : list Metric) : list call :=
  flat_map (λ m, (evaluate m question response reference).1) metrics.

Definition merged_results (question response reference : pyval)
    (results : dict) (metrics : list Metric) : dict :=
  fold_left (λ acc m,
               match (evaluate m question response reference).2 with
               | Ok d => merge_result (name m) acc d
               | Raise _ => acc
               end) metrics results.

Definition error_strings (question response reference : pyval)
    (metrics : list Metric) : list string :=
  flat_map (λ m,
              match (evaluate m question response reference).2 with
              | Ok _ => []
              | Raise e => [name m +:+ ": " +:+ str_exn e]
              end) metrics.

Fixpoint contains_char (c : ascii) (s : string) : bool :=
  match s with
  | EmptyString => false
  | String a s' => Ascii.eqb a c || contains_char c s'
  end.

Definition builtin_metrics (ext : Collaborators) : list Metric :=
  [RelevancyMetric ext; CorrectnessMetric ext; RougeMetric ext;
   ToxicityMetric ext].






(** ** Orders on the statuses and on the floats *)

(** The order of the three statuses: red below yellow below green. *)
Definition status_rank (status : string) : nat :=
  if String.eqb status "green" then 2
  else if String.eqb status "yellow" then 1
  else 0.

(** The place of a float that is not NaN in the order of the floats, as a
    triple compared lexicographically: sign class, then exponent, then
    mantissa. *)
Definition float_rank (x : spec_float) : Z * Z * Z :=
  match x with
  | S754_zero _ => (0, 0, 0)
  | S754_infinity s => (if s then -2 else 2, 0, 0)
  | S754_nan => (0, 0, 0)
  | S754_finite s m e =>
      if s then (-1, - e, Z.neg m) else (1, e, Z.pos m)
  end%Z.

Definition lex_compare (a b : Z * Z * Z) : comparison :=
  match (a.1.1 ?= b.1.1)%Z with
  | Eq => match (a.1.2 ?= b.1.2)%Z with
          | Eq => (a.2 ?= b.2)%Z
          | c => c
          end
  | c => c
  end.

(** ** Scored tables *)

(** A cell whose comparison with a threshold raises [TypeError]: [None], a
    string or a list. *)
Definition unordered (x : pyval) : bool :=
  match x with
  | PyNone | PyStr _ | PyList _ => true
  | PyBool _ | PyFloat _ => false
  end.

(** One of the three statuses. *)
Definition is_status (s : string) : Prop :=
  s = "red" ∨ s = "yellow" ∨ s = "green".

(** A table with one toxic record whose relevancy score is high. *)
Definition toxic_table : DataFrame :=
  {| columns := ["relevancy_score"; "toxicity_is_toxic"; "toxicity_score"];
     rows := [ {[ "relevancy_score" := PyFloat 0.9;
                  "toxicity_is_toxic" := PyBool true;
                  "toxicity_score" := PyFloat 0 ]} ] |}.

Definition toxic_scored : DataFrame :=
  Eval vm_compute in
    match score_results default_scorer toxic_table with
    | Ok scored => scored
    | Raise _ => toxic_table
    end.

(** ** The DSPy programs: [forward]

    The predictors query a language model; what they answer is the record
    of the output fields of the signature, or an exception. *)
Record ScorePrediction : Type := {
  p_score : pyval;
  p_explanation : pyval
}.

Record ToxicityPrediction : Type := {
  p_is_toxic : pyval;
  p_tox_explanation : pyval;
  p_toxicity_type : pyval
}.

Record Predictors : Type := {
  relevancy_predictor : pyval → pyval → res ScorePrediction;
  correctness_predictor : pyval → pyval → pyval → res ScorePrediction;
  toxicity_predictor : pyval → res ToxicityPrediction
}.

(** [min(a, b)] and [max(a, b)] on floats: the first argument is kept unless
    the second is strictly smaller (greater). *)
Definition py_min (a b : float) : float := if (b <? a)%float then b else a.
Definition py_max (a b : float) : float := if (a <? b)%float then b else a.

(** [try: score = float(x); score = max(0.0, min(1.0, score))
     except (ValueError, TypeError): score = 0.0].
    [float_of_str] is [float] on a string: the number it denotes, or [None]
    where [float] raises [ValueError]; on [None] and on a list [float]
    raises [TypeError]. *)
Definition bounded_score (float_of_str : string → option float) (x : pyval)
    : float :=
  let clamp := λ score, py_max 0 (py_min 1 score) in
  match x with
  | PyFloat f => clamp f
  | PyBool b => clamp (if b then 1 else 0)%float
  | PyStr s =>
      match float_of_str s with
      | Some f => clamp f
      | None => 0%float
      end
  | PyNone | PyList _ => 0%float
  end.

Definition RelevancyProgram_forward (float_of_str : string → option float)
    (predictor : pyval → pyval → res ScorePrediction)
    (question response : pyval) : res dict :=
  result ← predictor question response;
  let score := bounded_score float_of_str (p_score result) in
  Ok [("score", PyFloat score); ("explanation", p_explanation result)].

Definition CorrectnessProgram_forward (float_of_str : string → option float)
    (predictor : pyval → pyval → pyval → res ScorePrediction)
    (question response reference : pyval) : res dict :=
  result ← predictor question response reference;
  let score := bounded_score float_of_str (p_score result) in
  Ok [("score", PyFloat score); ("explanation", p_explanation result)].

(** [s.lower()] on the code points below 256. *)
Definition lower_char (c : ascii) : ascii :=
  let n := nat_of_ascii c in
  if ((65 <=? n) && (n <=? 90)
      || (192 <=? n) && (n <=? 222) && negb (n =? 215))%nat
  then ascii_of_nat (n + 32) else c.

Fixpoint lower (s : string) : string :=
  match s with
  | EmptyString => EmptyString
  | String c s' => String (lower_char c) (lower s')
  end.

Definition ToxicityProgram_forward
    (predictor : pyval → res ToxicityPrediction) (response : pyval)
    : res dict :=
  result ← predictor response;
  let is_toxic :=
    match p_is_toxic result with
    | PyStr s => bool_decide (lower s ∈ ["true"; "yes"; "1"])
    | x => truthy x
    end in
  Ok [("is_toxic", PyBool is_toxic);
      ("explanation", p_tox_explanation result);
      ("toxicity_type",
       if is_toxic then p_toxicity_type result else PyStr "none")].

(** The collaborators of the metrics when the three programs are the ones
    of the repository, over given predictors. *)
Definition dspy_programs (float_of_str : string → option float)
    (pred : Predictors) (ext : Collaborators) : Collaborators :=
  {| relevancy_program :=
       RelevancyProgram_forward float_of_str (relevancy_predictor pred);
     correctness_program :=
       CorrectnessProgram_forward float_of_str (correctness_predictor pred);
     toxicity_program := ToxicityProgram_forward (toxicity_predictor pred);
     rouge_get_scores := rouge_get_scores ext;
     format_3f := format_3f ext |}.

(** A float between 0 and 1, both included. *)
Definition unit_interval (f : float) : Prop :=
  (0 <=? f)%float = true ∧ (f <=? 1)%float = true.

(** What a score metric promises: a score between 0 and 1 with an
    explanation, or the [ValueError] of the input validation. *)
Definition bounded_score_result (outcome : res dict) : Prop :=
  match outcome with
  | Ok d => ∃ f e, d = [("score", PyFloat f); ("explanation", e)] ∧
                   unit_interval f
  | Raise e => ∃ msg, e = ValueError msg
  end.

(** ** pipeline.py: [EvaluationPipeline.evaluate] *)

(** [row.get("reference")]: [None] when the table has no such column. *)
Definition row_get (cols : list string) (row : gmap string pyval)
    (label : string) : pyval :=
  if bool_decide (label ∈ cols) then cell row label else PyNone.

(** The original data that the loop of [evaluate] adds to the results of a
    row. *)
Definition add_original_data (cols : list string) (row : gmap string pyval)
    (row_results : dict) : dict :=
  let question := cell row "question" in
  let response := cell row "response" in
  let reference := row_get cols row "reference" in
  let row_results := dict_set row_results "question" question in
  let row_results := dict_set row_results "response" response in
  let row_results :=
    match reference with
    | PyNone => row_results
    | _ => dict_set row_results "reference" reference
    end in
  if bool_decide ("id" ∈ cols)
  then dict_set row_results "id" (cell row "id")
  else row_results.

(** The body of [for _, row in data.iterrows()]. *)
Definition evaluate_row (metrics : list Metric) (cols : list string)
    (row : gmap string pyval) : traced dict :=
  let question := cell row "question" in
  let response := cell row "response" in
  let reference := row_get cols row "reference" in
  row_results ← evaluate_single metrics question response reference;
  mret (add_original_data cols row row_results).

(** The check of the required columns. *)
Definition require_columns (cols : list string) : res unit :=
  foldlM (λ (_ : unit) col,
            if bool_decide (col ∈ cols) then Ok tt
            else Raise (ValueError
                   ("Required column '" +:+ col +:+ "' not found in data")))
         tt ["question"; "response"].

(** [evaluate].  [frame] is the constructor [pd.DataFrame] applied to a
    list of records; [data] is a table or a list of records. *)
Definition EvaluationPipeline_evaluate (frame : list dict → DataFrame)
    (metrics : list Metric) (scorer : TrafficLightScorer)
    (data : DataFrame + list dict) : traced DataFrame :=
  let data := match data with inl df => df | inr l => frame l end in
  pure_step (require_columns (columns data));;
  results ← mapM (evaluate_row metrics (columns data)) (rows data);
  let results_df := frame results in
  pure_step (score_results scorer results_df).

(** The metric results of a row, without the calls. *)
Definition metric_results (metrics : list Metric) (cols : list string)
    (row : gmap string pyval) : dict :=
  let question := cell row "question" in
  let response := cell row "response" in
  let reference := row_get cols row "reference" in
  match error_strings question response reference metrics with
  | [] => merged_results question response reference [] metrics
  | _ =>
      dict_set (merged_results question response reference [] metrics)
        "errors"
        (PyList (error_strings question response reference metrics))
  end.

(** A frame constructor for the examples, for records that hold no
    [None]: the columns are the keys in the order of their first
    appearance, and a record without a key has a missing cell. *)
Definition frame_of_records (records : list dict) : DataFrame :=
  {| columns := foldl (λ cols d, foldl add_column cols (dict_keys d))
                  [] records;
     rows := map (λ d, list_to_map d) records |}.

(** ** main.py: the metrics and the scorer of the pipeline *)

(** [s.split(sep)] for a separator of one character. *)
Fixpoint split_on (sep : ascii) (s : string) : list string :=
  match s with
  | EmptyString => [EmptyString]
  | String c s' =>
      if Ascii.eqb c sep then EmptyString :: split_on sep s'
      else match split_on sep s' with
           | w :: ws => String c w :: ws
           | [] => [String c EmptyString]
           end
  end.

(** The metrics that [main] sets up from the [--metrics] argument. *)
Definition select_metrics (ext : Collaborators) (metrics_arg : string)
    : list Metric :=
  if String.eqb metrics_arg "all" then
    [RelevancyMetric ext; CorrectnessMetric ext; RougeMetric ext;
     ToxicityMetric ext]
  else
    let metric_names :=
      map (λ m, lower (strip m)) (split_on "," metrics_arg) in
    ((if bool_decide ("relevancy" ∈ metric_names)
      then [RelevancyMetric ext] else [])
     ++ (if bool_decide ("correctness" ∈ metric_names)
         then [CorrectnessMetric ext] else [])
     ++ (if bool_decide ("rouge" ∈ metric_names)
         then [RougeMetric ext] else [])
     ++ (if bool_decide ("toxicity" ∈ metric_names)
         then [ToxicityMetric ext] else []))%list.

(** The scorer that [main] sets up from the three configured thresholds. *)
Definition main_scorer
    (relevancy_threshold correctness_threshold rouge_threshold : float)
    : TrafficLightScorer :=
  {| rouge_thresholds := ((rouge_threshold - 0.1)%float, rouge_threshold);
     other_thresholds :=
       (0.4%float, py_min relevancy_threshold correctness_threshold);
     missing_eval_threshold := 0.05%float |}.

(** A string of whitespace only. *)
Fixpoint all_space (s : string) : bool :=
  match s with
  | EmptyString => true
  | String c s' => isspace c && all_space s'
  end.

(** * Properties *)

(** ** Floats *)

Lemma SFcompare_antisym x y c :
  SFcompare x y = Some c → SFcompare y x = Some (CompOpp c).
Proof.
  destruct x as [sx|sx| |sx mx ex], y as [sy|sy| |sy my ey]; simpl;
    intros [= <-]; try reflexivity;
    try (by destruct sx); try (by destruct sy); try (by destruct sx, sy).
  f_equal.
  destruct sx, sy; try reflexivity;
    rewrite (Z.compare_antisym ey ex); destruct (ey ?= ex)%Z; simpl;
    try reflexivity;
    change PosDef.Pos.compare_cont with Pos.compare_cont;
    rewrite (ZC4 my mx); by rewrite ?CompOpp_involutive.
Qed.

Lemma is_nan_false_compare x :
  is_nan x = false → SFcompare (Prim2SF x) (Prim2SF x) = Some Eq.
Proof.
  unfold is_nan. rewrite FloatAxioms.eqb_spec. unfold SFeqb.
  by destruct (SFcompare (Prim2SF x) (Prim2SF x)) as [[]|].
Qed.

Lemma SFcompare_defined x y :
  SFcompare x x = Some Eq → SFcompare y y = Some Eq →
  ∃ c, SFcompare x y = Some c.
Proof. destruct x, y; simpl; intros; try discriminate; eauto. Qed.

(** On numbers, [x < y] fails exactly when [y <= x]. *)
Lemma float_not_lt_ge (x y : float) :
  is_nan x = false → is_nan y = false →
  (x <? y)%float = negb (y <=? x)%float.
Proof.
  intros Hx%is_nan_false_compare Hy%is_nan_false_compare.
  rewrite FloatAxioms.ltb_spec, FloatAxioms.leb_spec. unfold SFltb, SFleb.
  destruct (SFcompare_defined _ _ Hx Hy) as [c Hc].
  rewrite Hc, (SFcompare_antisym _ _ _ Hc). by destruct c.
Qed.

(** NaN compares false with everything. *)
Lemma nan_ltb (y : float) : (nan <? y)%float = false.
Proof. rewrite FloatAxioms.ltb_spec. reflexivity. Qed.

Lemma nan_leb_r (y : float) : (y <=? nan)%float = false.
Proof.
  rewrite FloatAxioms.leb_spec. unfold SFleb.
  replace (Prim2SF nan) with S754_nan by reflexivity.
  by destruct (Prim2SF y).
Qed.

(** ** [compute_overall_status] *)

Lemma any_status_str_in s statuses : any_status s statuses = str_in s statuses.
Proof.
  unfold any_status, str_in.
  induction statuses as [|x l IH]; simpl; [done|].
  destruct (str_eq_val s x); simpl; [done|]. exact IH.
Qed.

(** The row-level call passes no counts, and then nothing can raise. *)
Lemma compute_overall_status_no_counts self statuses :
  compute_overall_status self statuses 0 0 =
  Ok (match statuses with
      | [] => "red"
      | _ => if str_in "red" statuses then "red"
             else if str_in "yellow" statuses then "yellow"
             else "green"
      end).
Proof.
  destruct statuses as [|x l]; [done|].
  unfold compute_overall_status. simpl (0 <? 0)%Z. cbn [mbind res_bind].
  by destruct (str_in "red" (x :: l)), (str_in "yellow" (x :: l)).
Qed.

(** C2: [compute_overall_status] is the specification's definition on every
    input, exceptions of the division included; and when the share of
    missing evaluations exceeds the threshold the result is never green. *)
Theorem compute_overall_status_refines self statuses missing_evals total_evals :
  compute_overall_status self statuses missing_evals total_evals
  = compute_overall_status_ref self statuses missing_evals total_evals
  ∧ match too_many_missing self missing_evals total_evals with
    | Ok true =>
        compute_overall_status self statuses missing_evals total_evals
        ≠ Ok "green"
    | _ => True
    end.
Proof.
  unfold compute_overall_status_ref, too_many_missing.
  rewrite !any_status_str_in, Z.gtb_ltb.
  destruct statuses as [|x l]; simpl length; cbn [Nat.eqb].
  - split; [done|].
    by destruct (0 <? total_evals)%Z;
      [destruct (int_true_div _ _) as [q|]; cbn; [destruct (_ <? q)%float|]|].
  - unfold compute_overall_status.
    destruct (0 <? total_evals)%Z; cbn [mbind res_bind].
    + destruct (int_true_div missing_evals total_evals) as [q|e];
        cbn [mbind res_bind]; [|done].
      destruct (_ <? q)%float;
        by destruct (str_in "red" (x :: l)), (str_in "yellow" (x :: l)).
    + by destruct (str_in "red" (x :: l)), (str_in "yellow" (x :: l)).
Qed.

(** The specification's examples, under the default threshold of 5%. *)
Example overall_no_statuses :
  compute_overall_status default_scorer [] 0 0 = Ok "red".
Proof. reflexivity. Qed.

Example overall_all_green :
  compute_overall_status default_scorer [PyStr "green"; PyStr "green"] 0 10
  = Ok "green".
Proof. reflexivity. Qed.

Example overall_capped_at_yellow :
  compute_overall_status default_scorer [PyStr "green"; PyStr "green"] 1 10
  = Ok "yellow".
Proof. vm_compute. reflexivity. Qed.

Example overall_red_dominates :
  compute_overall_status default_scorer [PyStr "red"; PyStr "green"] 0 10
  = Ok "red".
Proof. reflexivity. Qed.

Example overall_weakest_link :
  compute_overall_status default_scorer
    [PyStr "green"; PyStr "yellow"; PyStr "green"] 0 0 = Ok "yellow".
Proof. reflexivity. Qed.

(** A quotient beyond the range of a float raises, in the code as in the
    reference. *)
Example overall_overflow :
  compute_overall_status default_scorer [PyStr "green"] (10 ^ 400) 1
  = Raise (OverflowError "integer division result too large for a float").
Proof. vm_compute. reflexivity. Qed.

(** ** [score_to_status] *)

(** C3, as amended: on a score that is a number, under thresholds that are
    numbers, [score_to_status] is the specification's definition. *)
Theorem score_to_status_refines self score metric_name :
  is_nan score = false →
  thresholds_are_numbers self →
  score_to_status_ref self score metric_name
  = Some (score_to_status self score metric_name).
Proof.
  intros Hs (Hr1 & Hr2 & Ho1 & Ho2).
  unfold score_to_status_ref, score_to_status.
  destruct (String.eqb metric_name "toxicity"); [done|].
  assert (∀ low high, is_nan low = false → is_nan high = false →
    (if (score <? low)%float then Some "red"
     else if (low <=? score)%float && (score <? high)%float then Some "yellow"
     else if (high <=? score)%float then Some "green" else None)
    = Some (if (score <? low)%float then "red"
            else if (score <? high)%float then "yellow" else "green"))
    as Hcases.
  { intros low high Hl Hh.
    rewrite (float_not_lt_ge score low), (float_not_lt_ge score high) by done.
    by destruct (low <=? score)%float, (high <=? score)%float. }
  destruct (String.eqb metric_name "rouge").
  - destruct (rouge_thresholds self) as [low high]. by apply Hcases.
  - destruct (other_thresholds self) as [low high]. by apply Hcases.
Qed.

Lemma default_thresholds_are_numbers : thresholds_are_numbers default_scorer.
Proof. by repeat split. Qed.

Lemma score_to_status_refines_witness :
  is_nan 0.45%float = false ∧
  score_to_status_ref default_scorer 0.45%float "rouge" = Some "yellow".
Proof.
  split; [reflexivity|].
  exact (score_to_status_refines default_scorer 0.45%float "rouge"
           eq_refl default_thresholds_are_numbers).
Defined.

(** C3, as stated, fails on NaN: a metric other than toxicity is classified
    green although NaN meets none of the specification's three conditions. *)
Lemma score_to_status_nan_counterexample :
  score_to_status default_scorer nan "relevancy" = "green" ∧
  score_to_status_ref default_scorer nan "relevancy"
  ≠ Some (score_to_status default_scorer nan "relevancy").
Proof. split; [reflexivity|]. vm_compute. discriminate. Qed.

(** A NaN score is green for every metric but toxicity, whatever the
    thresholds, and red for toxicity. *)
Lemma score_to_status_nan self metric_name :
  score_to_status self nan metric_name
  = if String.eqb metric_name "toxicity" then "red" else "green".
Proof.
  unfold score_to_status.
  destruct (String.eqb metric_name "toxicity"); [by rewrite nan_leb_r|].
  destruct (if String.eqb metric_name "rouge" then _ else _) as [low high].
  by rewrite !nan_ltb.
Qed.

(** The thresholds at work: an overlap score of 0.5 is green, the same
    score for another metric is yellow. *)
Example status_rouge_half : score_to_status default_scorer 0.5 "rouge" = "green".
Proof. reflexivity. Qed.

Example status_relevancy_half :
  score_to_status default_scorer 0.5 "relevancy" = "yellow".
Proof. reflexivity. Qed.

Example status_toxic : score_to_status default_scorer 0 "toxicity" = "red".
Proof. reflexivity. Qed.

(** ** [compute_row_status] *)

(** C1: a row whose [toxicity_is_toxic] field is true is red, whatever its
    per-metric statuses are. *)
Theorem toxic_row_is_red self (row : Series) :
  "toxicity_is_toxic" ∈ index row →
  cell (values row) "toxicity_is_toxic" = PyBool true →
  compute_row_status self row = Ok "red".
Proof.
  intros Hin Htox. unfold compute_row_status.
  by rewrite bool_decide_eq_true_2, Htox.
Qed.

Lemma toxic_row_is_red_witness :
  compute_overall_status default_scorer
    [PyStr "green"; PyStr "green"] 0 0 = Ok "green" ∧
  compute_row_status default_scorer all_green_toxic_row = Ok "red".
Proof.
  split; [reflexivity|].
  apply (toxic_row_is_red default_scorer all_green_toxic_row).
  - vm_compute. repeat constructor.
  - reflexivity.
Defined.

(** ** Column names *)

Lemma append_nil_l (s : string) : "" +:+ s = s.
Proof. reflexivity. Qed.

Lemma append_cons (c : ascii) (p s : string) :
  String c p +:+ s = String c (p +:+ s).
Proof. reflexivity. Qed.

Lemma endswith_app (p suf : string) : endswith (p +:+ suf) suf = true.
Proof.
  induction p as [|c p IH].
  - rewrite append_nil_l. destruct suf; cbn [endswith]; by rewrite String.eqb_refl.
  - rewrite append_cons. cbn [endswith]. by rewrite IH, orb_true_r.
Qed.

Lemma endswith_inv (s suf : string) :
  endswith s suf = true → ∃ p, s = p +:+ suf.
Proof.
  induction s as [|c s IH].
  - cbn [endswith]. rewrite orb_false_r. intros <-%String.eqb_eq. by exists "".
  - cbn [endswith]. intros [->%String.eqb_eq | Hs]%orb_true_iff.
    + by exists "".
    + destruct (IH Hs) as [p ->]. by exists (String c p).
Qed.

Lemma last_char_app (p s : string) :
  is_Some (last_char s) → last_char (p +:+ s) = last_char s.
Proof.
  intros [c Hc]. induction p as [|a p IH]; [done|].
  rewrite append_cons. cbn [last_char]. by rewrite IH, Hc.
Qed.

Lemma status_name_not_score (m : string) :
  endswith (m +:+ "_status") "_score" = false.
Proof.
  apply not_true_is_false. intros [p Hp]%endswith_inv.
  apply (f_equal last_char) in Hp.
  rewrite !last_char_app in Hp by (by eexists). discriminate.
Qed.

Lemma status_name_not_flag (m : string) : m +:+ "_status" ≠ "toxicity_is_toxic".
Proof.
  intros Hm. apply (f_equal last_char) in Hm.
  rewrite last_char_app in Hm by (by eexists). discriminate.
Qed.

Lemma score_name_not_status (c m : string) :
  endswith c "_score" = true → c ≠ m +:+ "_status".
Proof. intros Hc ->. by rewrite status_name_not_score in Hc. Qed.

(** ** Loops in the error monad *)

Lemma res_ret_Ok {A} (a : A) : mret (M := res) a = Ok a.
Proof. reflexivity. Qed.
Lemma res_bind_Ok {A B} (f : A → res B) a : (Ok a ≫= f) = f a.
Proof. reflexivity. Qed.
Lemma res_bind_Raise {A B} (f : A → res B) e : (Raise e ≫= f) = Raise e.
Proof. reflexivity. Qed.
Lemma res_mapM_nil {A B} (f : A → res B) : mapM f [] = Ok [].
Proof. reflexivity. Qed.
Lemma res_mapM_cons {A B} (f : A → res B) x l :
  mapM f (x :: l) = (y ← f x; ys ← mapM f l; Ok (y :: ys)).
Proof. reflexivity. Qed.
Lemma res_foldlM_nil {A S} (f : S → A → res S) s : foldlM f s [] = Ok s.
Proof. reflexivity. Qed.
Lemma res_foldlM_cons {A S} (f : S → A → res S) s x l :
  foldlM f s (x :: l) = (s' ← f s x; foldlM f s' l).
Proof. reflexivity. Qed.

Create Rewrite HintDb res.
#[local] Hint Rewrite @res_ret_Ok @res_bind_Ok @res_bind_Raise @res_mapM_nil
  @res_mapM_cons @res_foldlM_nil @res_foldlM_cons : res.

Ltac res_simpl := autorewrite with res in *.

Lemma mapM_res_Ok {A B} (f : A → res B) (l : list A) (k : list B) :
  mapM f l = Ok k ↔ Forall2 (λ x y, f x = Ok y) l k.
Proof.
  revert k. induction l as [|x l IH]; intros k; res_simpl.
  - split; [intros [= <-]; constructor | by intros ->%Forall2_nil_inv_l].
  - destruct (f x) as [y|e] eqn:Hfx; res_simpl.
    + destruct (mapM f l) as [ys|e] eqn:Hl; res_simpl.
      * split.
        -- intros [= <-]. constructor; [done|]. by apply IH.
        -- inversion 1 as [|x' y' l' k' Hy Hk]; subst.
           apply IH in Hk. congruence.
      * split; [done|]. inversion 1 as [|x' y' l' k' Hy Hk]; subst.
        apply IH in Hk. congruence.
    + split; [done|]. inversion 1; congruence.
Qed.

Lemma mapM_res_ext {A B} (f g : A → res B) (l : list A) :
  (∀ x, f x = g x) → mapM f l = mapM g l.
Proof.
  intros Hfg. induction l as [|x l IH]; [done|].
  by rewrite !res_mapM_cons, Hfg, IH.
Qed.

Lemma mapM_res_pure {A B} (g : A → B) (l : list A) :
  mapM (M := res) (λ x, Ok (g x)) l = Ok (map g l).
Proof. apply mapM_res_Ok. induction l; constructor; auto. Qed.

Lemma Forall2_Ok_eq {A} (l k : list A) :
  Forall2 (λ x y, Ok x = Ok y) l k ↔ l = k.
Proof.
  split.
  - induction 1; simplify_eq; done.
  - intros ->. induction k; constructor; auto.
Qed.

(** Two loops in a row, seen row by row. *)
Lemma Forall2_bind_res {A B C} (f : A → res B) (g : B → res C) l m :
  Forall2 (λ x z, (y ← f x; g y) = Ok z) l m ↔
  ∃ k, Forall2 (λ x y, f x = Ok y) l k ∧ Forall2 (λ y z, g y = Ok z) k m.
Proof.
  split.
  - induction 1 as [|x z l m Hxz _ (k & Hk1 & Hk2)].
    + exists []. split; constructor.
    + destruct (f x) as [y|] eqn:Hy; [|done]. res_simpl.
      exists (y :: k). split; by constructor.
  - intros (k & Hk1 & Hk2). revert m Hk2.
    induction Hk1 as [|x y l k Hy _ IH]; intros m; inversion 1; subst;
      constructor; [|by apply IH].
    by rewrite Hy.
Qed.

(** ** [score_results], row by row *)

Lemma compute_row_status_total self cols r :
  compute_row_status self {| index := cols; values := r |}
  = Ok (row_status cols r).
Proof.
  unfold compute_row_status, row_status. cbn [index values].
  destruct (_ && _); [done|].
  by rewrite compute_overall_status_no_counts.
Qed.

Lemma DataFrame_eq (df df' : DataFrame) :
  columns df = columns df' → rows df = rows df' → df = df'.
Proof. destruct df, df'; cbn; by intros -> ->. Qed.

Lemma zip_with_insert_map (k : string) (g : gmap string pyval → pyval)
    (l : list (gmap string pyval)) :
  zip_with (λ r v, <[k := v]> r) l (map g l) = map (λ r, <[k := g r]> r) l.
Proof. induction l; cbn; by f_equal. Qed.

Lemma set_column_map df k (g : gmap string pyval → pyval) :
  set_column df k (map g (rows df))
  = {| columns := add_column (columns df) k;
       rows := map (λ r, <[k := g r]> r) (rows df) |}.
Proof. unfold set_column. by rewrite zip_with_insert_map. Qed.

(** One iteration of the loop succeeds on the frame when it succeeds on each
    row, and then the rows of the result are the rows' results. *)
Lemma score_column_rows self df col df' :
  score_column self df col = Ok df' ↔
  columns df' = columns_after_score (columns df) col ∧
  Forall2 (λ r r', row_score_column self r col = Ok r') (rows df) (rows df').
Proof.
  unfold score_column, columns_after_score, row_score_column.
  destruct (endswith col "_score").
  - unfold get_column.
    set (f := status_of_cell self (str_replace col "_score" "")).
    split.
    + destruct (mapM f _) as [vals|e] eqn:Hvals; res_simpl; [|done].
      intros [= <-]. split; [done|]. cbn [rows set_column].
      apply mapM_res_Ok in Hvals. revert vals Hvals.
      generalize (rows df). intros l.
      induction l as [|r l IH]; intros vals; inversion 1 as [|? v ? vs Hv Hvs];
        subst; cbn; constructor; [|by apply IH].
      by rewrite Hv.
    + intros [Hcols Hrows].
      assert (∃ vals, mapM f (map (λ r, cell r col) (rows df)) = Ok vals ∧
                rows df' = zip_with (λ r v, <[status_col col := v]> r)
                             (rows df) vals) as (vals & -> & Hz).
      { clear Hcols. induction Hrows as [|r r' l l' Hr _ (vals & Hv & Hz)].
        - by exists [].
        - destruct (f (cell r col)) as [v|] eqn:Hfv; [|done]. res_simpl.
          exists (v :: vals). cbn [map]. res_simpl.
          rewrite Hfv, Hv. res_simpl. split; [done|]. cbn. congruence. }
      res_simpl. f_equal. symmetry. by apply DataFrame_eq.
  - split.
    + intros [= <-]. split; [done|]. by apply Forall2_Ok_eq.
    + intros [Hcols Hrows%Forall2_Ok_eq]. f_equal. symmetry.
      by apply DataFrame_eq.
Qed.

Lemma score_columns_rows self cs df df' :
  foldlM (score_column self) df cs = Ok df' ↔
  columns df' = foldl columns_after_score (columns df) cs ∧
  Forall2 (λ r r', foldlM (row_score_column self) r cs = Ok r')
          (rows df) (rows df').
Proof.
  revert df. induction cs as [|c cs IH]; intros df.
  - res_simpl. cbn [foldl]. split.
    + intros [= <-]. split; [done|]. by apply Forall2_Ok_eq.
    + intros [Hcols Hrows%Forall2_Ok_eq]. f_equal. symmetry.
      by apply DataFrame_eq.
  - rewrite res_foldlM_cons. cbn [foldl]. split.
    + destruct (score_column self df c) as [d1|e] eqn:Hd1; res_simpl; [|done].
      apply score_column_rows in Hd1 as [Hc1 Hr1].
      intros [Hc Hr]%IH. split; [by rewrite Hc, Hc1|].
      apply Forall2_bind_res. eauto.
    + intros [Hcols (rows1 & Hr1 & Hr)%Forall2_bind_res].
      assert (score_column self df c
              = Ok {| columns := columns_after_score (columns df) c;
                      rows := rows1 |}) as ->
        by by apply score_column_rows.
      res_simpl. by apply IH.
Qed.

(** [score_results] succeeds exactly when the loop over the columns
    succeeds on every row; the toxicity and overall steps then apply to each
    row of the loop's result. *)
Lemma score_results_rows self df df' :
  score_results self df = Ok df' ↔
  let cols1 := foldl columns_after_score (columns df) (columns df) in
  let cols2 := if bool_decide ("toxicity_is_toxic" ∈ cols1)
               then add_column cols1 "toxicity_status" else cols1 in
  columns df' = add_column cols2 "overall_status" ∧
  Forall2 (λ r r', ∃ r1,
             foldlM (row_score_column self) r (columns df) = Ok r1 ∧
             r' = row_overall cols2 (row_toxicity cols1 r1))
          (rows df) (rows df').
Proof.
  cbv zeta. unfold score_results.
  set (tox := λ d : DataFrame,
         if bool_decide ("toxicity_is_toxic" ∈ columns d)
         then set_column d "toxicity_status"
                (map (λ x, PyStr (if truthy x then "red" else "green"))
                     (get_column d "toxicity_is_toxic"))
         else d).
  assert (∀ d, tox d
          = {| columns := if bool_decide ("toxicity_is_toxic" ∈ columns d)
                          then add_column (columns d) "toxicity_status"
                          else columns d;
               rows := map (row_toxicity (columns d)) (rows d) |}) as Htox.
  { intros d. unfold tox, row_toxicity, get_column.
    destruct (bool_decide _).
    - rewrite map_map.
      by rewrite (set_column_map d "toxicity_status"
        (λ r, PyStr (if truthy (cell r "toxicity_is_toxic")
                     then "red" else "green"))).
    - destruct d; cbn. by rewrite map_id. }
  assert (∀ d, (overall ← mapM (λ r, s ← compute_row_status self
                                  {| index := columns d; values := r |};
                                Ok (PyStr s)) (rows d);
                Ok (set_column d "overall_status" overall))
          = Ok {| columns := add_column (columns d) "overall_status";
                  rows := map (row_overall (columns d)) (rows d) |}) as Hov.
  { intros d.
    rewrite (mapM_res_ext _ (λ r, Ok (PyStr (row_status (columns d) r)))).
    - rewrite mapM_res_pure. res_simpl.
      by rewrite (set_column_map d "overall_status"
                    (λ r, PyStr (row_status (columns d) r))).
    - intros r. by rewrite compute_row_status_total. }
  split.
  - destruct (foldlM _ _ _) as [d1|e] eqn:Hd1; res_simpl; [|done].
    apply score_columns_rows in Hd1 as [Hc1 Hr1].
    fold (tox d1). rewrite Hov, Htox. cbn [columns rows].
    intros [= <-]. cbn [columns rows]. rewrite Hc1. split; [done|].
    rewrite map_map. clear -Hr1.
    induction Hr1; cbn; constructor; eauto.
  - intros [Hcols Hrows].
    assert (∃ rows1,
      Forall2 (λ r r1, foldlM (row_score_column self) r (columns df) = Ok r1)
              (rows df) rows1 ∧
      rows df' = map (λ r1, row_overall
        (if bool_decide ("toxicity_is_toxic" ∈
               foldl columns_after_score (columns df) (columns df))
         then add_column (foldl columns_after_score (columns df) (columns df))
                "toxicity_status"
         else foldl columns_after_score (columns df) (columns df))
        (row_toxicity (foldl columns_after_score (columns df) (columns df))
           r1)) rows1) as (rows1 & Hr1 & Hmap).
    { clear Hcols.
      induction Hrows as [|r r' l l' (r1 & Hr1 & ->) _ (rows1 & Hl & ->)].
      - by exists [].
      - exists (r1 :: rows1). split; [by constructor|done]. }
    assert (foldlM (score_column self) df (columns df)
            = Ok {| columns := foldl columns_after_score (columns df)
                                 (columns df);
                    rows := rows1 |}) as ->
      by by apply score_columns_rows.
    res_simpl.
    match goal with |- context [set_column ?d "toxicity_status" _] =>
      fold (tox d) end.
    rewrite Hov, Htox. cbn [columns rows]. f_equal. symmetry.
    apply DataFrame_eq; cbn [columns rows]; [done|].
    by rewrite Hmap, map_map.
Qed.

(** *** The column labels *)

Lemma status_col_status_name col : status_name (status_col col).
Proof. by eexists. Qed.

Lemma status_name_is_status k : status_name k → endswith k "_status" = true.
Proof. intros [m ->]. apply endswith_app. Qed.

Lemma status_name_no_score k : status_name k → endswith k "_score" = false.
Proof. intros [m ->]. apply status_name_not_score. Qed.

Lemma status_name_no_flag k : status_name k → k ≠ "toxicity_is_toxic".
Proof. intros [m ->]. apply status_name_not_flag. Qed.

Lemma toxicity_status_name : status_name "toxicity_status".
Proof. by exists "toxicity". Qed.

Lemma overall_status_name : status_name "overall_status".
Proof. by exists "overall". Qed.

Lemma extends_refl cols : extends cols cols.
Proof. exists []. by rewrite app_nil_r. Qed.

Lemma extends_trans a b c : extends a b → extends b c → extends a c.
Proof.
  intros (n1 & -> & H1) (n2 & -> & H2). exists (n1 ++ n2)%list.
  split; [by rewrite app_assoc|]. by apply Forall_app.
Qed.

Lemma extends_add_column cols k : status_name k → extends cols (add_column cols k).
Proof.
  intros Hk. unfold add_column. destruct (bool_decide _).
  - apply extends_refl.
  - exists [k]. split; [done|]. by constructor.
Qed.

Lemma add_column_present cols k : k ∈ cols → add_column cols k = cols.
Proof. intros Hk. unfold add_column. by rewrite bool_decide_eq_true_2. Qed.

Lemma elem_of_add_column cols k c : c ∈ add_column cols k ↔ c ∈ cols ∨ c = k.
Proof.
  unfold add_column. case_bool_decide as Hk.
  - split; [auto|]. by intros [?| ->].
  - rewrite elem_of_app, list_elem_of_singleton. done.
Qed.

Lemma extends_subseteq a b c : extends a b → c ∈ a → c ∈ b.
Proof. intros (n & -> & _) Hc. apply elem_of_app. by left. Qed.

Lemma extends_score_columns a b :
  extends a b →
  List.filter (λ c, endswith c "_score") b
  = List.filter (λ c, endswith c "_score") a.
Proof.
  intros (n & -> & Hn). rewrite List.filter_app.
  replace (List.filter _ n) with (@nil string); [by rewrite app_nil_r|].
  induction Hn as [|k n Hk _ IH]; [done|].
  cbn. by rewrite (status_name_no_score k Hk).
Qed.

Lemma extends_flag a b :
  extends a b → "toxicity_is_toxic" ∈ b ↔ "toxicity_is_toxic" ∈ a.
Proof.
  intros (n & -> & Hn). rewrite elem_of_app. split; [|auto].
  intros [?|Hin]; [done|]. rewrite Forall_forall in Hn.
  by destruct (status_name_no_flag _ (Hn _ Hin)).
Qed.

Lemma columns_after_score_extends cols col :
  extends cols (columns_after_score cols col).
Proof.
  unfold columns_after_score. destruct (endswith col "_score").
  - apply extends_add_column, status_col_status_name.
  - apply extends_refl.
Qed.

Lemma score_loop_extends cs cols :
  extends cols (foldl columns_after_score cols cs).
Proof.
  revert cols. induction cs as [|c cs IH]; intros cols; cbn [foldl].
  - apply extends_refl.
  - eapply extends_trans; [apply columns_after_score_extends|apply IH].
Qed.

Lemma score_loop_status_cols cs cols c :
  c ∈ cs → endswith c "_score" = true →
  status_col c ∈ foldl columns_after_score cols cs.
Proof.
  revert cols. induction cs as [|c' cs IH]; intros cols; [by inversion 1|].
  intros [->|Hc]%elem_of_cons Hs; cbn [foldl]; [|by apply IH].
  eapply extends_subseteq; [apply score_loop_extends|].
  unfold columns_after_score. rewrite Hs. apply elem_of_add_column. by right.
Qed.

Lemma score_loop_fixed cs cols :
  (∀ c, c ∈ cs → endswith c "_score" = true → status_col c ∈ cols) →
  foldl columns_after_score cols cs = cols.
Proof.
  induction cs as [|c cs IH]; intros Hcs; [done|]. cbn [foldl].
  assert (columns_after_score cols c = cols) as ->.
  { unfold columns_after_score. destruct (endswith c "_score") eqn:Hs; [|done].
    apply add_column_present, Hcs; [left|done]. }
  apply IH. intros c' Hc'. apply Hcs. by right.
Qed.

(** *** The loop over the columns on one row *)

Lemma row_score_column_skip self r c :
  endswith c "_score" = false → row_score_column self r c = Ok r.
Proof. intros Hc. unfold row_score_column. by rewrite Hc. Qed.

Lemma row_score_column_score self r c :
  endswith c "_score" = true →
  row_score_column self r c
  = (v ← status_of_cell self (str_replace c "_score" "") (cell r c);
     Ok (<[status_col c := v]> r)).
Proof. intros Hc. unfold row_score_column. by rewrite Hc. Qed.

Lemma row_loop_score_columns self cs r :
  foldlM (row_score_column self) r cs
  = foldlM (row_score_column self) r
      (List.filter (λ c, endswith c "_score") cs).
Proof.
  revert r. induction cs as [|c cs IH]; intros r; [done|].
  cbn [List.filter]. destruct (endswith c "_score") eqn:Hc.
  - rewrite !res_foldlM_cons. destruct (row_score_column self r c); [|done].
    res_simpl. apply IH.
  - rewrite res_foldlM_cons, row_score_column_skip by done.
    res_simpl. apply IH.
Qed.

Lemma cell_insert_ne (r : gmap string pyval) k v c :
  k ≠ c → cell (<[k := v]> r) c = cell r c.
Proof. intros Hk. unfold cell. by rewrite lookup_insert_ne. Qed.

Lemma writes_ext self r r' cs :
  Forall (λ c, cell r' c = cell r c) cs → writes self r' cs = writes self r cs.
Proof.
  unfold writes. induction 1 as [|c cs Hc _ IH]; [done|].
  by rewrite !res_mapM_cons, Hc, IH.
Qed.

Lemma writes_keys self r cs W :
  writes self r cs = Ok W → Forall (λ kv, status_name kv.1) W.
Proof.
  unfold writes. intros HW%mapM_res_Ok.
  induction HW as [|c kv cs W Hkv _ IH]; constructor; [|done].
  destruct (status_of_cell _ _ _); [|done]. res_simpl.
  injection Hkv as <-. apply status_col_status_name.
Qed.

Lemma writes_keys_cols self r cs W k :
  writes self r cs = Ok W → k ∈ W.*1 → ∃ c, c ∈ cs ∧ k = status_col c.
Proof.
  unfold writes. intros HW%mapM_res_Ok.
  induction HW as [|c kv cs W Hkv _ IH]; cbn; [by inversion 1|].
  destruct (status_of_cell _ _ _); [|done]. res_simpl.
  injection Hkv as <-. cbn.
  intros [->|Hk]%elem_of_cons.
  - exists c. split; [left|done].
  - destruct (IH Hk) as (c' & ? & ?). exists c'. split; [by right|done].
Qed.

Lemma row_loop_writes self cs r :
  Forall (λ c, endswith c "_score" = true) cs →
  foldlM (row_score_column self) r cs
  = (W ← writes self r cs; Ok (apply_writes r W)).
Proof.
  intros Hcs. revert r. induction Hcs as [|c cs Hc Hcs IH]; intros r; [done|].
  rewrite res_foldlM_cons. unfold writes. rewrite res_mapM_cons.
  rewrite row_score_column_score by done.
  destruct (status_of_cell _ _ _) as [v|e]; [|done]. res_simpl.
  rewrite IH. fold (writes self (<[status_col c := v]> r) cs).
  rewrite (writes_ext self r).
  - fold (writes self r cs). by destruct (writes self r cs).
  - eapply Forall_impl; [exact Hcs|]. intros c' Hc'. cbn beta in Hc'.
    apply cell_insert_ne. intros Heq. rewrite <- Heq in Hc'.
    by rewrite (status_name_no_score _ (status_col_status_name c)) in Hc'.
Qed.

Lemma apply_writes_union r W : apply_writes r W = apply_writes ∅ W ∪ r.
Proof.
  unfold apply_writes. revert r.
  induction W as [|[k v] W IH]; intros r; cbn [foldl].
  - by rewrite (left_id_L ∅ (∪)).
  - rewrite IH, (IH (<[_ := _]> ∅)). cbn.
    by rewrite <- (assoc_L (∪)), <- insert_union_l, (left_id_L ∅ (∪)).
Qed.

Lemma apply_writes_dom W k :
  is_Some (apply_writes ∅ W !! k) ↔ k ∈ W.*1.
Proof.
  unfold apply_writes. rewrite <- (right_id_L [] (++) W) at 2.
  assert (∀ (m : gmap string pyval),
    is_Some (foldl (λ m kv, <[kv.1 := kv.2]> m) m W !! k)
    ↔ is_Some (m !! k) ∨ k ∈ W.*1) as Hgen.
  { induction W as [|[k' v] W IH]; intros m; cbn [foldl fmap list_fmap].
    - split; [auto|]. intros [?|Hin]; [done|]. by inversion Hin.
    - rewrite IH, elem_of_cons. cbn.
      destruct (decide (k' = k)) as [->|Hne].
      + rewrite lookup_insert_eq. split; [auto|]. intros _. left. by eexists.
      + rewrite lookup_insert_ne by done. split; [tauto|].
        intros [?|[?|?]]; [tauto|congruence|tauto]. }
  rewrite Hgen, lookup_empty, app_nil_r. split; [|auto].
  intros [[? [=]]|?]. done.
Qed.

(** *** The overall status is stable *)

Lemma str_in_spec s l : str_in s l = true ↔ PyStr s ∈ l.
Proof.
  unfold str_in. rewrite existsb_exists. split.
  - intros (x & Hx%list_elem_of_In & Heq). destruct x; try done.
    cbn in Heq. by apply String.eqb_eq in Heq as ->.
  - intros Hin. exists (PyStr s). split; [by apply list_elem_of_In|].
    cbn. apply String.eqb_refl.
Qed.

Lemma str_in_false s l : str_in s l = false ↔ PyStr s ∉ l.
Proof.
  rewrite <- str_in_spec. by destruct (str_in s l).
Qed.

Lemma overall_of_nonempty sts :
  sts ≠ [] →
  overall_of sts = if str_in "red" sts then "red"
                   else if str_in "yellow" sts then "yellow" else "green".
Proof. by destruct sts. Qed.

(** Adding the overall status of a list of statuses to the list (and
    dropping some of the others) leaves the overall status as it was. *)
Lemma overall_of_stable sts sts' :
  sts' ≠ [] →
  (∀ s, PyStr s ∈ sts' → s = overall_of sts ∨ PyStr s ∈ sts) →
  PyStr (overall_of sts) ∈ sts' →
  overall_of sts' = overall_of sts.
Proof.
  intros Hne Hsub Hin.
  assert (∀ s, s ≠ overall_of sts → str_in s sts = false →
               str_in s sts' = false) as Hout.
  { intros s Hs Hnot. apply str_in_false. intros [->|Hs']%Hsub; [done|].
    by apply str_in_false in Hnot. }
  apply str_in_spec in Hin. rewrite (overall_of_nonempty sts') by done.
  destruct sts as [|y sts0].
  - change (overall_of []) with "red" in Hin. by rewrite Hin.
  - revert Hin Hout. rewrite (overall_of_nonempty (y :: sts0)) by done.
    generalize (y :: sts0). intros sts Hin Hout.
    destruct (str_in "red" sts) eqn:Hr; [by rewrite Hin|].
    destruct (str_in "yellow" sts) eqn:Hy.
    + by rewrite (Hout "red"), Hin.
    + by rewrite (Hout "red"), (Hout "yellow").
Qed.

Lemma elem_of_status_cells (m : gmap string pyval) cols x :
  x ∈ map (cell m) (List.filter (λ col, endswith col "_status") cols) ↔
  ∃ c, c ∈ cols ∧ endswith c "_status" = true ∧ x = cell m c.
Proof.
  rewrite list_elem_of_In, in_map_iff. split.
  - intros (c & <- & [Hc Hs]%filter_In). exists c.
    by rewrite list_elem_of_In.
  - intros (c & Hc & Hs & ->). exists c. split; [done|].
    apply filter_In. by rewrite <- list_elem_of_In.
Qed.

Lemma row_status_stable cols (m : gmap string pyval) :
  row_status (add_column cols "overall_status")
    (<["overall_status" := PyStr (row_status cols m)]> m)
  = row_status cols m.
Proof.
  unfold row_status at 1 3.
  rewrite cell_insert_ne by done.
  assert (bool_decide ("toxicity_is_toxic" ∈ add_column cols "overall_status")
          = bool_decide ("toxicity_is_toxic" ∈ cols)) as ->.
  { apply bool_decide_ext. rewrite elem_of_add_column.
    split; [by intros [?|?]|auto]. }
  destruct (_ && _) eqn:Hveto; [done|].
  assert (row_status cols m
          = overall_of (map (cell m)
              (List.filter (λ col, endswith col "_status") cols))) as Ho
    by (unfold row_status; by rewrite Hveto).
  rewrite Ho. apply overall_of_stable.
  - intros Hnil.
    assert (PyStr (overall_of (map (cell m)
              (List.filter (λ col, endswith col "_status") cols)))
            ∈ map (cell (<["overall_status" := PyStr (overall_of (map (cell m)
              (List.filter (λ col, endswith col "_status") cols)))]> m))
              (List.filter (λ col, endswith col "_status")
                 (add_column cols "overall_status"))) as Hin.
    { apply elem_of_status_cells. exists "overall_status".
      rewrite elem_of_add_column. unfold cell.
      by rewrite lookup_insert_eq; auto. }
    rewrite Hnil in Hin. by inversion Hin.
  - intros s (c & Hc & Hs & Heq)%elem_of_status_cells.
    destruct (decide (c = "overall_status")) as [->|Hne].
    + left. unfold cell in Heq. rewrite lookup_insert_eq in Heq.
      by injection Heq.
    + right. rewrite cell_insert_ne in Heq by done.
      apply elem_of_status_cells. exists c.
      apply elem_of_add_column in Hc as [?|?]; done.
  - apply elem_of_status_cells. exists "overall_status".
    rewrite elem_of_add_column. unfold cell.
    by rewrite lookup_insert_eq; auto.
Qed.

(** *** A second pass over a scored row *)

Lemma cell_apply_writes (r : gmap string pyval) W c :
  Forall (λ kv, status_name kv.1) W → ¬ status_name c →
  cell (apply_writes r W) c = cell r c.
Proof.
  intros HW Hc. revert r. unfold apply_writes.
  induction HW as [|[k v] W Hk _ IH]; intros r; cbn [foldl]; [done|].
  rewrite IH. apply cell_insert_ne. intros <-. done.
Qed.

Lemma cell_row_toxicity cols (r : gmap string pyval) c :
  ¬ status_name c → cell (row_toxicity cols r) c = cell r c.
Proof.
  intros Hc. unfold row_toxicity. destruct (bool_decide _); [|done].
  apply cell_insert_ne. intros <-. by destruct Hc; apply toxicity_status_name.
Qed.

Lemma cell_row_overall cols (r : gmap string pyval) c :
  ¬ status_name c → cell (row_overall cols r) c = cell r c.
Proof.
  intros Hc. apply cell_insert_ne. intros <-.
  by destruct Hc; apply overall_status_name.
Qed.

Lemma score_name_no_status c : endswith c "_score" = true → ¬ status_name c.
Proof. intros Hc Hs. by rewrite (status_name_no_score c Hs) in Hc. Qed.

Lemma flag_no_status : ¬ status_name "toxicity_is_toxic".
Proof. intros Hs. by apply (status_name_no_flag _ Hs). Qed.

(** The column labels of a scored table are left as they are by a second
    pass. *)
Lemma second_pass_columns cs0 :
  let cols1 := foldl columns_after_score cs0 cs0 in
  let cols2 := if bool_decide ("toxicity_is_toxic" ∈ cols1)
               then add_column cols1 "toxicity_status" else cols1 in
  let cols3 := add_column cols2 "overall_status" in
  extends cs0 cols3 ∧
  foldl columns_after_score cols3 cols3 = cols3 ∧
  (if bool_decide ("toxicity_is_toxic" ∈ cols3)
   then add_column cols3 "toxicity_status" else cols3) = cols3.
Proof.
  intros cols1 cols2 cols3.
  assert (extends cs0 cols1) as H01 by apply score_loop_extends.
  assert (extends cols1 cols2) as H12.
  { unfold cols2. destruct (bool_decide _); [|apply extends_refl].
    apply extends_add_column, toxicity_status_name. }
  assert (extends cols2 cols3) as H23
    by apply extends_add_column, overall_status_name.
  assert (extends cs0 cols3) as H03 by eauto using extends_trans.
  split; [done|]. split.
  - apply score_loop_fixed. intros c Hc Hs.
    apply (extends_subseteq cols1); [eauto using extends_trans|].
    apply score_loop_status_cols; [|done].
    destruct H03 as (new & Hnew & Hst). rewrite Hnew in Hc.
    apply elem_of_app in Hc as [?|Hc]; [done|].
    rewrite Forall_forall in Hst.
    by destruct (score_name_no_status c Hs); apply Hst.
  - case_bool_decide as Hflag; [|done].
    apply add_column_present, (extends_subseteq cols2); [done|].
    apply (extends_flag cols1) in Hflag; [|eauto using extends_trans].
    unfold cols2. rewrite bool_decide_eq_true_2 by done.
    apply elem_of_add_column. by right.
Qed.

(** Writing the same statuses over a scored row, then the toxicity status:
    the row is back where it was before its overall status was set, unless
    the loop itself writes [overall_status]. *)
Lemma rewrite_scored_row (Wm m : gmap string pyval) (b : bool) t o :
  let tox := λ r : gmap string pyval,
    if b then <["toxicity_status" := t]> r else r in
  tox (Wm ∪ <["overall_status" := o]> (tox (Wm ∪ m)))
  = match Wm !! "overall_status" with
    | Some _ => tox (Wm ∪ m)
    | None => <["overall_status" := o]> (tox (Wm ∪ m))
    end.
Proof.
  intros tox. apply map_eq. intros k. unfold tox.
  destruct (Wm !! "overall_status") as [w|] eqn:Hov; destruct b;
    repeat (rewrite ?lookup_union, ?lookup_insert);
    repeat case_decide; simplify_eq; rewrite ?Hov; try done;
    repeat match goal with
           | |- context [?mm !! ?kk] => destruct (mm !! kk) eqn:?
           end; done.
Qed.

Lemma row_second_pass self cs0 r r1 :
  foldlM (row_score_column self) r cs0 = Ok r1 →
  let cols1 := foldl columns_after_score cs0 cs0 in
  let cols2 := if bool_decide ("toxicity_is_toxic" ∈ cols1)
               then add_column cols1 "toxicity_status" else cols1 in
  let cols3 := add_column cols2 "overall_status" in
  let r' := row_overall cols2 (row_toxicity cols1 r1) in
  ∃ r1', foldlM (row_score_column self) r' cols3 = Ok r1' ∧
         r' = row_overall cols3 (row_toxicity cols3 r1').
Proof.
  intros Hloop cols1 cols2 cols3 r'.
  destruct (second_pass_columns cs0) as (H03 & _ & _). fold cols1 cols2 cols3 in H03.
  set (S := List.filter (λ c, endswith c "_score") cs0).
  assert (Forall (λ c, endswith c "_score" = true) S) as HS.
  { apply Forall_forall. intros c Hc%list_elem_of_In%filter_In. tauto. }
  rewrite row_loop_score_columns, row_loop_writes in Hloop by done.
  fold S in Hloop. destruct (writes self r S) as [W|e] eqn:HW; [|done].
  res_simpl. injection Hloop as <-.
  assert (Forall (λ kv, status_name kv.1) W) as HWk by eauto using writes_keys.
  assert (∀ c, ¬ status_name c → cell r' c = cell r c) as Hcell.
  { intros c Hc. unfold r'.
    by rewrite cell_row_overall, cell_row_toxicity, cell_apply_writes. }
  exists (apply_writes r' W). split.
  - rewrite row_loop_score_columns, (extends_score_columns cs0 cols3) by done.
    fold S. rewrite row_loop_writes by done.
    rewrite (writes_ext self r r'), HW; [done|].
    eapply Forall_impl; [exact HS|]. intros c Hc.
    by apply Hcell, score_name_no_status.
  - assert (bool_decide ("toxicity_is_toxic" ∈ cols3)
            = bool_decide ("toxicity_is_toxic" ∈ cols1)) as Hflag.
    { apply bool_decide_ext. rewrite (extends_flag cs0 cols3) by done.
      symmetry. apply extends_flag, score_loop_extends. }
    assert (row_toxicity cols3 (apply_writes r' W)
            = match apply_writes ∅ W !! "overall_status" with
              | Some _ => row_toxicity cols1 (apply_writes r W)
              | None => r'
              end) as Htox.
    { unfold row_toxicity. rewrite Hflag.
      assert (cell (apply_writes r' W) "toxicity_is_toxic"
              = cell (apply_writes r W) "toxicity_is_toxic") as ->.
      { rewrite !cell_apply_writes by auto using flag_no_status.
        apply Hcell, flag_no_status. }
      rewrite (apply_writes_union r').
      unfold r', row_overall, row_toxicity.
      rewrite (apply_writes_union r).
      match goal with
      | |- context [<["toxicity_status" := ?t]> (apply_writes ∅ W ∪ r)] =>
          match goal with
          | |- context [<["overall_status" := ?o]> _] =>
              exact (rewrite_scored_row (apply_writes ∅ W) r
                       (bool_decide ("toxicity_is_toxic" ∈ cols1)) t o)
          end
      end. }
    rewrite Htox.
    destruct (apply_writes ∅ W !! "overall_status") as [w|] eqn:Hov.
    + assert (cols3 = cols2) as ->; [|done].
      apply add_column_present.
      assert ("overall_status" ∈ W.*1) as Hin
        by (apply apply_writes_dom; by rewrite Hov).
      destruct (writes_keys_cols _ _ _ _ _ HW Hin) as (c & Hc & ->).
      apply list_elem_of_In, filter_In in Hc as [Hc Hs].
      assert (status_col c ∈ cols1) as H1
        by (apply score_loop_status_cols; [by apply list_elem_of_In|done]).
      unfold cols2. destruct (bool_decide _); [|done].
      apply elem_of_add_column. by left.
    + unfold r', row_overall, cols3.
      by rewrite row_status_stable, insert_insert_eq.
Qed.

(** C6: scoring a scored table again changes nothing: the table that
    [score_results] returns is a fixed point of [score_results], with the
    same columns, the same per-metric statuses and the same overall
    status in every row. *)
Theorem score_results_idempotent self df scored :
  score_results self df = Ok scored →
  score_results self scored = Ok scored.
Proof.
  intros [Hcols Hrows]%score_results_rows. cbv zeta in Hcols, Hrows.
  destruct (second_pass_columns (columns df)) as (_ & Hc1 & Hc2).
  cbv zeta in Hc1, Hc2. rewrite <- Hcols in Hc1, Hc2.
  apply score_results_rows. cbv zeta. rewrite Hc1, Hc2. split.
  - symmetry. apply add_column_present. rewrite Hcols.
    apply elem_of_add_column. by right.
  - apply Forall_Forall2_diag.
    eapply Forall2_Forall_r; [exact Hrows|].
    apply Forall_forall. intros r _ r' (r1 & Hr1 & ->). rewrite Hcols.
    exact (row_second_pass self (columns df) r r1 Hr1).
Qed.


Lemma score_results_idempotent_witness :
  score_results default_scorer example_table = Ok example_scored ∧
  score_results default_scorer example_scored = Ok example_scored.
Proof.
  split; [vm_compute; reflexivity|].
  apply (score_results_idempotent default_scorer example_table).
  vm_compute. reflexivity.
Defined.

(** *** A missing score *)

Lemma length_append (a b : string) :
  String.length (a +:+ b) = String.length a + String.length b.
Proof. induction a as [|c a IH]; [done|]. rewrite append_cons. cbn. by rewrite IH. Qed.

Lemma append_inj_r (a b s : string) : a +:+ s = b +:+ s → a = b.
Proof.
  revert b. induction a as [|c a IH]; intros [|c' b] Heq; [done| | |].
  - apply (f_equal String.length) in Heq.
    rewrite append_nil_l, append_cons in Heq. cbn in Heq.
    rewrite length_append in Heq. lia.
  - apply (f_equal String.length) in Heq.
    rewrite append_nil_l, append_cons in Heq. cbn in Heq.
    rewrite length_append in Heq. lia.
  - rewrite !append_cons in Heq. injection Heq as -> Heq.
    by rewrite (IH b).
Qed.

Lemma writes_spec self r cs W :
  writes self r cs = Ok W →
  Forall2 (λ c kv, kv.1 = status_col c ∧
             status_of_cell self (str_replace c "_score" "") (cell r c)
             = Ok kv.2) cs W.
Proof.
  unfold writes. intros HW%mapM_res_Ok.
  eapply Forall2_impl; [exact HW|]. intros c kv Hkv. cbn beta in Hkv.
  destruct (status_of_cell _ _ _); [|done]. res_simpl.
  by injection Hkv as <-.
Qed.

(** A key written once, or always with the same value, ends up with it. *)
Lemma apply_writes_lookup (r : gmap string pyval) W k v :
  (∀ kv, kv ∈ W → kv.1 = k → kv.2 = v) →
  k ∈ W.*1 ∨ r !! k = Some v →
  apply_writes r W !! k = Some v.
Proof.
  unfold apply_writes. revert r.
  induction W as [|[k' v'] W IH]; intros r Hsame Hin; cbn [foldl].
  - destruct Hin as [Hin|?]; [by inversion Hin|done].
  - apply IH; [intros kv Hkv; apply Hsame; by right|].
    cbn. destruct (decide (k' = k)) as [->|Hne].
    + right. rewrite lookup_insert_eq. f_equal.
      apply (Hsame (k, v')); [left|done].
    + rewrite lookup_insert_ne by done.
      destruct Hin as [[?|?]%elem_of_cons|?]; [done|by left|by right].
Qed.

(** C9, as amended: a NaN in the score column of a metric (not called
    overall), when no other score column shares the metric's status column,
    gives the row the status green for every metric but toxicity.  For
    toxicity the status is red when the table has no [toxicity_is_toxic]
    column; when it has one, the status is that row's flag alone: red when
    the flag cell is truthy, green when it is not.  A row whose flag cell is
    missing as well, as it is when the toxicity metric raised, is red for
    toxicity either way. *)
Theorem nan_score_is_green self df scored col (i : nat) r :
  score_results self df = Ok scored →
  col ∈ columns df →
  endswith col "_score" = true →
  str_replace col "_score" "" ≠ "overall" →
  (∀ c, c ∈ columns df → endswith c "_score" = true →
        status_col c = status_col col → c = col) →
  rows df !! i = Some r →
  cell r col = PyNaN →
  ∃ r', rows scored !! i = Some r' ∧
        r' !! status_col col
        = Some (PyStr
            (if String.eqb (str_replace col "_score" "") "toxicity" then
               if bool_decide ("toxicity_is_toxic" ∈ columns df) then
                 if truthy (cell r "toxicity_is_toxic") then "red" else "green"
               else "red"
             else "green")) ∧
        (str_replace col "_score" "" = "toxicity" →
         cell r "toxicity_is_toxic" = PyNaN →
         r' !! status_col col = Some (PyStr "red")).
Proof.
  intros [_ Hrows]%score_results_rows Hcol Hs Hov Huniq Hi Hnan.
  cbv zeta in Hrows.
  destruct (Forall2_lookup_l _ _ _ _ _ Hrows Hi) as (r' & Hi' & r1 & Hr1 & ->).
  eexists. split; [exact Hi'|].
  match goal with
  | |- ?main ∧ _ => assert main as Hmain
  end.
  2:{ split; [exact Hmain|]. intros Htox%String.eqb_eq Hflag.
      rewrite Hmain, Htox, Hflag.
      by destruct (bool_decide ("toxicity_is_toxic" ∈ columns df)). }
  assert (status_col col ≠ "overall_status") as Hk1.
  { intros Heq. apply Hov. by apply (append_inj_r _ "overall" "_status"). }
  unfold row_overall. rewrite lookup_insert_ne by done.
  rewrite row_loop_score_columns, row_loop_writes in Hr1.
  2:{ apply Forall_forall. intros c Hc%list_elem_of_In%filter_In. tauto. }
  destruct (writes self r _) as [W|e] eqn:HW; [|done].
  res_simpl. injection Hr1 as <-.
  pose proof (writes_keys _ _ _ _ HW) as Hkeys.
  apply writes_spec in HW.
  set (status := if String.eqb (str_replace col "_score" "") "toxicity"
                 then "red" else "green").
  assert (apply_writes r W !! status_col col = Some (PyStr status)) as Hr1k.
  { assert (∀ c kv, c ∈ List.filter (λ c, endswith c "_score") (columns df) →
              kv.1 = status_col c ∧
              status_of_cell self (str_replace c "_score" "") (cell r c)
              = Ok kv.2 →
              kv.1 = status_col col → kv.2 = PyStr status) as Hstatus.
    { intros c kv [Hc Hcs]%list_elem_of_In%filter_In [Hk Hv] Hkc.
      apply list_elem_of_In in Hc.
      assert (c = col) as -> by (apply Huniq; congruence).
      rewrite Hnan in Hv. cbn in Hv. rewrite score_to_status_nan in Hv.
      unfold status. congruence. }
    apply apply_writes_lookup.
    - intros kv Hkv Hk.
      apply list_elem_of_lookup in Hkv as [j Hj].
      destruct (Forall2_lookup_r _ _ _ _ _ HW Hj) as (c & Hc & Hckv).
      eapply Hstatus; [|exact Hckv|exact Hk].
      by eapply list_elem_of_lookup_2.
    - left.
      assert (col ∈ List.filter (λ c, endswith c "_score") (columns df)) as Hin.
      { apply list_elem_of_In, filter_In. by rewrite <- list_elem_of_In. }
      apply list_elem_of_lookup in Hin as [j Hj].
      destruct (Forall2_lookup_l _ _ _ _ _ HW Hj) as (kv & Hkv & Hk & _).
      apply list_elem_of_fmap. exists kv. split; [done|].
      by eapply list_elem_of_lookup_2. }
  unfold row_toxicity.
  assert (bool_decide ("toxicity_is_toxic" ∈
            foldl columns_after_score (columns df) (columns df))
          = bool_decide ("toxicity_is_toxic" ∈ columns df)) as ->.
  { apply bool_decide_ext, extends_flag, score_loop_extends. }
  unfold status in Hr1k.
  destruct (String.eqb (str_replace col "_score" "") "toxicity") eqn:Htox;
    try rewrite Htox in Hr1k.
  - apply String.eqb_eq in Htox.
    assert (status_col col = "toxicity_status") as Hk2.
    { unfold status_col. by rewrite Htox. }
    destruct (bool_decide ("toxicity_is_toxic" ∈ columns df)); [|done].
    rewrite Hk2, lookup_insert_eq.
    by rewrite cell_apply_writes by (done || apply flag_no_status).
  - apply String.eqb_neq in Htox.
    assert (status_col col ≠ "toxicity_status") as Hk2.
    { intros Heq. apply Htox.
      by apply (append_inj_r _ "toxicity" "_status"). }
    destruct (bool_decide ("toxicity_is_toxic" ∈ columns df)); [|done].
    by rewrite lookup_insert_ne.
Qed.

Lemma nan_score_is_green_witness :
  (cell {[ "errors" := PyList ["relevancy: boom"];
           "toxicity_is_toxic" := PyBool false;
           "toxicity_score" := PyFloat 1 ]} "relevancy_score" = PyNaN ∧
   ∃ r', rows example_scored !! 0 = Some r' ∧
         r' !! "relevancy_status" = Some (PyStr "green")) ∧
  (cell {[ "relevancy_score" := PyFloat 0.9;
           "errors" := PyList ["toxicity: boom"] ]} "toxicity_score" = PyNaN ∧
   ∃ scored r',
     score_results default_scorer toxicity_errored_table = Ok scored ∧
     rows scored !! 0 = Some r' ∧
     r' !! "toxicity_status" = Some (PyStr "red")).
Proof.
  split.
  - split; [reflexivity|].
    destruct (nan_score_is_green default_scorer example_table example_scored
                "relevancy_score" 0
                {[ "errors" := PyList ["relevancy: boom"];
                   "toxicity_is_toxic" := PyBool false;
                   "toxicity_score" := PyFloat 1 ]})
      as (r' & Hr' & Hstatus & _); [..|by exists r'].
    + vm_compute. reflexivity.
    + vm_compute. repeat constructor.
    + reflexivity.
    + vm_compute. discriminate.
    + intros c Hc Hs Heq. cbn in Hc.
      repeat (apply elem_of_cons in Hc as [->|Hc]);
        [discriminate..|reflexivity|by inversion Hc].
    + reflexivity.
    + reflexivity.
  - split; [reflexivity|].
    destruct (score_results default_scorer toxicity_errored_table)
      as [scored|e] eqn:Hscored; [|by vm_compute in Hscored].
    exists scored.
    destruct (nan_score_is_green default_scorer toxicity_errored_table scored
                "toxicity_score" 0
                {[ "relevancy_score" := PyFloat 0.9;
                   "errors" := PyList ["toxicity: boom"] ]})
      as (r' & Hr' & _ & Hstatus).
    + exact Hscored.
    + vm_compute. repeat constructor.
    + reflexivity.
    + vm_compute. discriminate.
    + intros c Hc Hs Heq. cbn in Hc.
      repeat (apply elem_of_cons in Hc as [->|Hc]);
        [discriminate..|reflexivity|by inversion Hc].
    + reflexivity.
    + reflexivity.
    + exists r'. split; [reflexivity|]. split; [exact Hr'|].
      by apply Hstatus.
Defined.

(** C9, as stated, fails for the toxicity metric: the record on which it
    raised has a missing [toxicity_score], and its toxicity status is red. *)
Lemma toxicity_nan_counterexample :
  (∃ r, rows toxicity_errored_table !! 0 = Some r ∧
        cell r "toxicity_score" = PyNaN) ∧
  score_to_status default_scorer nan "toxicity" = "red" ∧
  table_cell (score_results default_scorer toxicity_errored_table) 0
    "toxicity_status" = Some (PyStr "red") ∧
  table_cell (score_results default_scorer toxicity_errored_table) 0
    "toxicity_status" ≠ Some (PyStr "green").
Proof.
  split; [by eexists|]. split; [reflexivity|].
  split; vm_compute; [reflexivity|discriminate].
Qed.

(** ** The metrics *)

Lemma traced_bind_pure_Ok {A B} (a : A) (f : A → traced B) :
  (pure_step (Ok a) ≫= f) = f a.
Proof. unfold pure_step. cbn. by destruct (f a). Qed.

Lemma traced_bind_pure_Raise {A B} (e : exn) (f : A → traced B) :
  (pure_step (Raise e) ≫= f) = ([], Raise e).
Proof. reflexivity. Qed.

Lemma validate_inputs_response q r ref :
  validate_inputs q r ref = Ok tt → ∃ s, r = PyStr s.
Proof.
  unfold validate_inputs. destruct q; try done.
  destruct (String.eqb _ _); [done|]. destruct r; try done. eauto.
Qed.

Lemma validate_inputs_no_reference q r ref :
  validate_inputs q r ref = Ok tt → validate_inputs q r PyNone = Ok tt.
Proof.
  unfold validate_inputs. destruct q; try done.
  destruct (String.eqb _ _); [done|]. by destruct r.
Qed.

Lemma validate_inputs_empty_reference q r :
  validate_inputs q r (PyStr "") = validate_inputs q r PyNone.
Proof. reflexivity. Qed.

(** C8: without a reference, the correctness and overlap metrics return
    score 0.0 and an explanation that names the missing reference, and call
    no collaborator, whatever the collaborators would answer. *)
Theorem missing_reference_short_circuits ext question response :
  validate_inputs question response PyNone = Ok tt →
  evaluate (CorrectnessMetric ext) question response PyNone
  = ([], Ok [("score", PyFloat 0);
             ("explanation",
              PyStr "Cannot evaluate correctness without a reference answer")])
  ∧ evaluate (RougeMetric ext) question response PyNone
  = ([], Ok [("score", PyFloat 0);
             ("explanation",
              PyStr "Cannot calculate ROUGE score without a reference answer")]).
Proof.
  intros Hvalid. cbn [evaluate CorrectnessMetric RougeMetric].
  unfold CorrectnessMetric_evaluate, RougeMetric_evaluate.
  by rewrite Hvalid, !traced_bind_pure_Ok.
Qed.

Lemma missing_reference_short_circuits_witness :
  validate_inputs (PyStr "Capital of France?") (PyStr "Paris") PyNone = Ok tt ∧
  evaluate (CorrectnessMetric unavailable)
    (PyStr "Capital of France?") (PyStr "Paris") PyNone
  = ([], Ok [("score", PyFloat 0);
             ("explanation",
              PyStr "Cannot evaluate correctness without a reference answer")]).
Proof.
  split; [reflexivity|].
  apply (missing_reference_short_circuits unavailable
           (PyStr "Capital of France?") (PyStr "Paris")).
  reflexivity.
Defined.

(** C10: an empty reference is treated as an absent one: the two metrics
    answer as they do without a reference, and on a valid input that is
    score 0.0 with the missing-reference explanation and no call. *)
Theorem empty_reference_is_absent ext question response :
  validate_inputs question response (PyStr "") = Ok tt →
  validate_inputs question response PyNone = Ok tt
  ∧ evaluate (CorrectnessMetric ext) question response (PyStr "")
    = evaluate (CorrectnessMetric ext) question response PyNone
  ∧ evaluate (RougeMetric ext) question response (PyStr "")
    = evaluate (RougeMetric ext) question response PyNone
  ∧ evaluate (CorrectnessMetric ext) question response (PyStr "")
    = ([], Ok [("score", PyFloat 0);
               ("explanation",
                PyStr "Cannot evaluate correctness without a reference answer")])
  ∧ evaluate (RougeMetric ext) question response (PyStr "")
    = ([], Ok [("score", PyFloat 0);
               ("explanation",
                PyStr "Cannot calculate ROUGE score without a reference answer")]).
Proof.
  intros Hvalid. cbn [evaluate CorrectnessMetric RougeMetric].
  unfold CorrectnessMetric_evaluate, RougeMetric_evaluate.
  rewrite validate_inputs_empty_reference in *.
  by rewrite Hvalid, !traced_bind_pure_Ok.
Qed.

Lemma empty_reference_is_absent_witness :
  validate_inputs (PyStr "Capital of France?") (PyStr "Paris") (PyStr "")
  = Ok tt ∧
  evaluate (RougeMetric unavailable)
    (PyStr "Capital of France?") (PyStr "Paris") (PyStr "")
  = ([], Ok [("score", PyFloat 0);
             ("explanation",
              PyStr "Cannot calculate ROUGE score without a reference answer")]).
Proof.
  split; [reflexivity|].
  apply (empty_reference_is_absent unavailable
           (PyStr "Capital of France?") (PyStr "Paris")).
  reflexivity.
Defined.

(** C7, as amended: on a valid input with an empty response every metric
    short-circuits with no call and the default score; the explanation is
    "Empty response" for relevancy and toxicity, and for correctness and
    overlap when the reference is a non-empty string; without one, these
    two answer with their missing-reference explanation. *)
Theorem empty_response_short_circuits ext question reference :
  validate_inputs question (PyStr "") reference = Ok tt →
  evaluate (RelevancyMetric ext) question (PyStr "") reference
  = ([], Ok [("score", PyFloat 0); ("explanation", PyStr "Empty response")])
  ∧ evaluate (ToxicityMetric ext) question (PyStr "") reference
  = ([], Ok [("is_toxic", PyBool false);
             ("explanation", PyStr "Empty response");
             ("toxicity_type", PyStr "none");
             ("score", PyFloat 1)])
  ∧ evaluate (CorrectnessMetric ext) question (PyStr "") reference
  = ([], Ok [("score", PyFloat 0);
             ("explanation",
              PyStr (if truthy reference then "Empty response"
                     else "Cannot evaluate correctness without a reference answer"))])
  ∧ evaluate (RougeMetric ext) question (PyStr "") reference
  = ([], Ok [("score", PyFloat 0);
             ("explanation",
              PyStr (if truthy reference then "Empty response"
                     else "Cannot calculate ROUGE score without a reference answer"))]).
Proof.
  intros Hvalid.
  pose proof (validate_inputs_no_reference _ _ _ Hvalid) as Hvalid'.
  cbn [evaluate RelevancyMetric ToxicityMetric CorrectnessMetric RougeMetric].
  unfold RelevancyMetric_evaluate, ToxicityMetric_evaluate,
    CorrectnessMetric_evaluate, RougeMetric_evaluate.
  rewrite Hvalid, Hvalid', !traced_bind_pure_Ok.
  by destruct (truthy reference).
Qed.

Lemma empty_response_short_circuits_witness :
  validate_inputs (PyStr "Q") (PyStr "") (PyStr "R") = Ok tt ∧
  evaluate (CorrectnessMetric unavailable) (PyStr "Q") (PyStr "") (PyStr "R")
  = ([], Ok [("score", PyFloat 0); ("explanation", PyStr "Empty response")]).
Proof.
  split; [reflexivity|].
  apply (empty_response_short_circuits unavailable (PyStr "Q") (PyStr "R")).
  reflexivity.
Defined.

(** C7, as stated, fails when the reference is absent too: the correctness
    metric then explains the missing reference, not the empty response. *)
Lemma empty_response_no_reference_counterexample :
  validate_inputs (PyStr "Q") (PyStr "") PyNone = Ok tt ∧
  evaluate (CorrectnessMetric unavailable) (PyStr "Q") (PyStr "") PyNone
  = ([], Ok [("score", PyFloat 0);
             ("explanation",
              PyStr "Cannot evaluate correctness without a reference answer")])
  ∧ evaluate (CorrectnessMetric unavailable) (PyStr "Q") (PyStr "") PyNone
    ≠ ([], Ok [("score", PyFloat 0);
               ("explanation", PyStr "Empty response")]).
Proof. split; [reflexivity|]. split; [reflexivity|discriminate]. Qed.

(** ** [evaluate_single] *)

Lemma contains_char_app c a b :
  contains_char c (a +:+ b) = contains_char c a || contains_char c b.
Proof.
  induction a as [|x a IH]; [done|].
  rewrite append_cons. cbn. by rewrite IH, orb_assoc.
Qed.

Lemma prefixed_key_underscore n k : contains_char "_" (n +:+ "_" +:+ k) = true.
Proof. rewrite !contains_char_app. cbn. by rewrite orb_true_r. Qed.

Lemma elem_of_dict_set_keys d k v k' :
  k' ∈ dict_keys (dict_set d k v) ↔ k' ∈ dict_keys d ∨ k' = k.
Proof.
  unfold dict_keys. induction d as [|[k0 v0] d IH]; cbn.
  - rewrite list_elem_of_singleton. split; [auto|]. intros [H|?]; [|done].
    by inversion H.
  - destruct (String.eqb k0 k) eqn:Heq; cbn.
    + apply String.eqb_eq in Heq as ->. rewrite !elem_of_cons. tauto.
    + rewrite !elem_of_cons, IH. tauto.
Qed.

Lemma merge_result_keys n results d :
  Forall (λ k, contains_char "_" k = true) (dict_keys results) →
  Forall (λ k, contains_char "_" k = true) (dict_keys (merge_result n results d)).
Proof.
  unfold merge_result. revert results.
  induction d as [|[k v] d IH]; intros results Hres; cbn [fold_left]; [done|].
  apply IH. apply Forall_forall. intros k' [Hk'| ->]%elem_of_dict_set_keys.
  - rewrite Forall_forall in Hres. auto.
  - apply prefixed_key_underscore.
Qed.

Section one_record.
(** The record under evaluation: question, response, reference. *)
Context (q r ref : pyval).

Lemma merged_results_keys results ms :
  Forall (λ k, contains_char "_" k = true) (dict_keys results) →
  Forall (λ k, contains_char "_" k = true)
         (dict_keys (merged_results q r ref results ms)).
Proof.
  unfold merged_results. revert results.
  induction ms as [|m ms IH]; intros results Hres; cbn [fold_left]; [done|].
  apply IH. destruct (evaluate m q r ref).2; [|done].
  by apply merge_result_keys.
Qed.

Lemma apply_metric_outcome results errors m :
  apply_metric q r ref (results, errors) m
  = ((evaluate m q r ref).1,
     Ok (match (evaluate m q r ref).2 with
         | Ok d => (merge_result (name m) results d, errors)
         | Raise e =>
             (results, (errors ++ [name m +:+ ": " +:+ str_exn e])%list)
         end)).
Proof.
  unfold apply_metric, try_except.
  destruct (evaluate m q r ref) as [t [d|e]]; cbn; by rewrite app_nil_r.
Qed.

Lemma metrics_loop ms results errors :
  foldlM (apply_metric q r ref) (results, errors) ms
  = (calls_of q r ref ms,
     Ok (merged_results q r ref results ms,
         (errors ++ error_strings q r ref ms)%list)).
Proof.
  revert results errors. induction ms as [|m ms IH]; intros results errors.
  - cbn. by rewrite app_nil_r.
  - cbn [foldlM]. rewrite apply_metric_outcome.
    cbn [mbind traced_bind].
    destruct (evaluate m q r ref) as [t [d|e]] eqn:Hm; cbn [fst snd];
      rewrite IH; unfold calls_of, merged_results, error_strings;
      cbn [flat_map fold_left]; rewrite Hm; cbn [fst snd]; [done|].
    by rewrite <- app_assoc.
Qed.

Lemma evaluate_single_outcome ms :
  evaluate_single ms q r ref
  = (calls_of q r ref ms,
     Ok (match error_strings q r ref ms with
         | [] => merged_results q r ref [] ms
         | _ =>
             dict_set (merged_results q r ref [] ms) "errors"
               (PyList (error_strings q r ref ms))
         end)).
Proof.
  unfold evaluate_single. rewrite metrics_loop. cbn. by rewrite app_nil_r.
Qed.

Lemma succeeding_metrics ms results :
  merged_results q r ref results (List.filter (succeeds q r ref) ms)
  = merged_results q r ref results ms
  ∧ error_strings q r ref (List.filter (succeeds q r ref) ms) = [].
Proof.
  unfold merged_results, error_strings, succeeds. revert results.
  induction ms as [|m ms IH]; intros results; [done|]. cbn.
  destruct (evaluate m q r ref).2 eqn:Hm; cbn; [rewrite Hm|]; apply IH.
Qed.

Lemma error_strings_nil ms :
  error_strings q r ref ms = [] ↔ ∀ m, m ∈ ms → succeeds q r ref m = true.
Proof.
  unfold error_strings. induction ms as [|m ms IH]; cbn [flat_map].
  - split; [|done]. intros _ m Hm. by inversion Hm.
  - destruct (succeeds q r ref m) eqn:Hs; unfold succeeds in Hs;
      destruct (evaluate m q r ref).2 eqn:Hm; try done; cbn [app].
    + rewrite IH. split.
      * intros H m' [->|?]%elem_of_cons; [|by auto].
        unfold succeeds. by rewrite Hm.
      * intros H m' Hm'. apply H. by right.
    + split; [done|]. intros H. specialize (H m (list_elem_of_here _ _)).
      unfold succeeds in H. by rewrite Hm in H.
Qed.

Lemma error_strings_failure ms :
  error_strings q r ref ms ≠ [] →
  ∃ m, m ∈ ms ∧ succeeds q r ref m = false.
Proof.
  induction ms as [|m ms IH]; [done|]. intros Hne.
  destruct (succeeds q r ref m) eqn:Hs.
  - destruct IH as (m' & Hm' & Hf).
    + intros Hnil. apply Hne. unfold error_strings, succeeds in *.
      cbn [flat_map]. by destruct (evaluate m q r ref).2.
    + exists m'. split; [by right|done].
  - exists m. split; [left|done].
Qed.

(** C5: on a record with question [q], response [r] and reference [ref], a
    metric that raises is caught; the row is the one the metrics that
    returned produce, plus the [errors] field; [errors] holds one string
    [name: message] per metric that raised, in order; every metric is
    evaluated, whatever the earlier ones did; and [errors] is on the
    row exactly when some metric raised. *)
Theorem evaluate_single_isolates_failures metrics :
  let ok := List.filter (succeeds q r ref) metrics in
  let results := merged_results q r ref [] ok in
  let errors := error_strings q r ref metrics in
  let row := match errors with
             | [] => results
             | _ => dict_set results "errors" (PyList errors)
             end in
  evaluate_single ok q r ref
  = (calls_of q r ref ok, Ok results)
  ∧ ("errors" ∉ dict_keys results)
  ∧ evaluate_single metrics q r ref
    = (calls_of q r ref metrics, Ok row)
  ∧ ("errors" ∈ dict_keys row ↔
     (∃ m, m ∈ metrics ∧ succeeds q r ref m = false)).
Proof.
  intros ok results errors row.
  destruct (succeeding_metrics metrics [])
    as [Hres Herr]. fold ok in Hres, Herr.
  assert ("errors" ∉ dict_keys results) as Hfresh.
  { intros Hin.
    pose proof (merged_results_keys [] ok ltac:(constructor)) as Hk.
    rewrite Forall_forall in Hk. specialize (Hk _ Hin). discriminate Hk. }
  split; [|split; [done|split]].
  - rewrite evaluate_single_outcome, Herr. reflexivity.
  - rewrite evaluate_single_outcome. unfold row, results, errors.
    rewrite Hres. reflexivity.
  - unfold row, errors.
    destruct (error_strings q r ref metrics)
      as [|e errs] eqn:He.
    + split; [done|]. intros (m & Hm & Hfail).
      rewrite error_strings_nil in He. by rewrite He in Hfail.
    + split; [|intros _; apply elem_of_dict_set_keys; by right].
      intros _. apply error_strings_failure. by rewrite He.
Qed.

End one_record.

(** ** Failures inside a metric and failures of a metric *)







Lemma evaluate_single_raised m q r ref t e :
  evaluate m q r ref = (t, Raise e) →
  evaluate_single [m] q r ref
  = (t, Ok [("errors", PyList [name m +:+ ": " +:+ str_exn e])]).
Proof.
  intros Hm. rewrite evaluate_single_outcome.
  unfold calls_of, error_strings, merged_results. cbn. rewrite Hm. cbn.
  by rewrite app_nil_r.
Qed.

Lemma evaluate_single_returned m q r ref t d :
  evaluate m q r ref = (t, Ok d) →
  evaluate_single [m] q r ref = (t, Ok (merge_result (name m) [] d)).
Proof.
  intros Hm. rewrite evaluate_single_outcome.
  unfold calls_of, error_strings, merged_results. cbn. rewrite Hm. cbn.
  by rewrite app_nil_r.
Qed.


(** ** The order of the floats *)

Lemma SFcompare_rank x y :
  x ≠ S754_nan → y ≠ S754_nan →
  SFcompare x y = Some (lex_compare (float_rank x) (float_rank y)).
Proof.
  intros Hx Hy. unfold lex_compare.
  destruct x as [sx|sx| |sx mx ex], y as [sy|sy| |sy my ey]; try done;
    cbn [SFcompare float_rank]; f_equal.
  all: try (by destruct sx); try (by destruct sy); try (by destruct sx, sy).
  destruct sx, sy; cbn [fst snd]; try reflexivity.
  rewrite Z.compare_opp, (Z.compare_antisym ex ey).
  destruct (ex ?= ey)%Z; cbn; reflexivity.
Qed.

Lemma lex_compare_le_lt a b c :
  lex_compare a b ≠ Gt → lex_compare b c = Lt → lex_compare a c = Lt.
Proof.
  destruct a as [[a1 a2] a3], b as [[b1 b2] b3], c as [[c1 c2] c3].
  unfold lex_compare. cbn [fst snd]. intros Hab Hbc.
  destruct (Z.compare_spec a1 b1); try done;
    destruct (Z.compare_spec b1 c1); try done;
    destruct (Z.compare_spec a1 c1); try done; try lia.
  destruct (Z.compare_spec a2 b2); try done;
    destruct (Z.compare_spec b2 c2); try done;
    destruct (Z.compare_spec a2 c2); try done; try lia.
  destruct (Z.compare_spec a3 b3); try done;
    destruct (Z.compare_spec b3 c3); try done;
    destruct (Z.compare_spec a3 c3); try done; lia.
Qed.

Lemma lex_compare_le_le a b c :
  lex_compare a b ≠ Gt → lex_compare b c ≠ Gt → lex_compare a c ≠ Gt.
Proof.
  destruct a as [[a1 a2] a3], b as [[b1 b2] b3], c as [[c1 c2] c3].
  unfold lex_compare. cbn [fst snd]. intros Hab Hbc.
  destruct (Z.compare_spec a1 b1); try done;
    destruct (Z.compare_spec b1 c1); try done;
    destruct (Z.compare_spec a1 c1); try done; try lia.
  destruct (Z.compare_spec a2 b2); try done;
    destruct (Z.compare_spec b2 c2); try done;
    destruct (Z.compare_spec a2 c2); try done; try lia.
  destruct (Z.compare_spec a3 b3); try done;
    destruct (Z.compare_spec b3 c3); try done;
    destruct (Z.compare_spec a3 c3); try done; lia.
Qed.

Lemma SFleb_not_nan x y : SFleb x y = true → x ≠ S754_nan ∧ y ≠ S754_nan.
Proof. unfold SFleb. by destruct x, y. Qed.

Lemma SFltb_not_nan x y : SFltb x y = true → x ≠ S754_nan ∧ y ≠ S754_nan.
Proof. unfold SFltb. by destruct x, y. Qed.

(** [x <= y] and [y < z] give [x < z]. *)
Lemma float_le_lt_trans (x y z : float) :
  (x <=? y)%float = true → (y <? z)%float = true → (x <? z)%float = true.
Proof.
  rewrite FloatAxioms.leb_spec, !FloatAxioms.ltb_spec.
  intros Hxy Hyz.
  destruct (SFleb_not_nan _ _ Hxy) as [Hx Hy].
  destruct (SFltb_not_nan _ _ Hyz) as [_ Hz].
  revert Hxy Hyz. unfold SFleb, SFltb.
  rewrite !SFcompare_rank by done.
  pose proof (lex_compare_le_lt (float_rank (Prim2SF x))
                (float_rank (Prim2SF y)) (float_rank (Prim2SF z))) as Htrans.
  destruct (lex_compare (float_rank (Prim2SF x)) (float_rank (Prim2SF y)));
    destruct (lex_compare (float_rank (Prim2SF y)) (float_rank (Prim2SF z)));
    try done; intros _ _; by rewrite Htrans.
Qed.

(** [x <= y] and [y <= z] give [x <= z]. *)
Lemma float_le_trans (x y z : float) :
  (x <=? y)%float = true → (y <=? z)%float = true → (x <=? z)%float = true.
Proof.
  rewrite !FloatAxioms.leb_spec.
  intros Hxy Hyz.
  destruct (SFleb_not_nan _ _ Hxy) as [Hx Hy].
  destruct (SFleb_not_nan _ _ Hyz) as [_ Hz].
  revert Hxy Hyz. unfold SFleb.
  rewrite !SFcompare_rank by done.
  pose proof (lex_compare_le_le (float_rank (Prim2SF x))
                (float_rank (Prim2SF y)) (float_rank (Prim2SF z))) as Htrans.
  destruct (lex_compare (float_rank (Prim2SF x)) (float_rank (Prim2SF y)));
    destruct (lex_compare (float_rank (Prim2SF y)) (float_rank (Prim2SF z)));
    try done; intros _ _;
    by destruct (lex_compare (float_rank (Prim2SF x)) (float_rank (Prim2SF z)));
      try done; destruct Htrans.
Qed.

(** ** More on [score_to_status] *)

(** X1: [score_to_status] is monotone in the score, for every metric name and
    every pair of thresholds. *)
Theorem score_to_status_monotone self metric_name (s1 s2 : float) :
  (s1 <=? s2)%float = true →
  (status_rank (score_to_status self s1 metric_name)
   ≤ status_rank (score_to_status self s2 metric_name))%nat.
Proof.
  intros Hle. unfold score_to_status.
  destruct (String.eqb metric_name "toxicity").
  - destruct (1 <=? s1)%float eqn:H1.
    + by rewrite (float_le_trans 1 s1 s2).
    + cbn. lia.
  - destruct (if String.eqb metric_name "rouge" then _ else _) as [lower upper].
    destruct (s2 <? lower)%float eqn:H2l.
    + by rewrite (float_le_lt_trans s1 s2 lower).
    + destruct (s2 <? upper)%float eqn:H2u.
      * rewrite (float_le_lt_trans s1 s2 upper) by done.
        by destruct (s1 <? lower)%float; cbn; lia.
      * by destruct (s1 <? lower)%float, (s1 <? upper)%float; cbn; lia.
Qed.

Lemma score_to_status_monotone_witness :
  (0.45 <=? 0.6)%float = true ∧
  (status_rank (score_to_status default_scorer 0.45 "rouge")
   ≤ status_rank (score_to_status default_scorer 0.6 "rouge"))%nat.
Proof.
  split; [reflexivity|].
  apply (score_to_status_monotone default_scorer "rouge" 0.45 0.6).
  reflexivity.
Defined.

(** ** More on [compute_overall_status] *)

Lemma str_in_ext s (l l' : list pyval) :
  (∀ x, x ∈ l ↔ x ∈ l') → str_in s l = str_in s l'.
Proof.
  intros Hll'. apply eq_true_iff_eq. rewrite !str_in_spec. apply Hll'.
Qed.

(** X2: the overall status depends on which statuses occur, not on their
    order or on how often each occurs. *)
Theorem compute_overall_status_set self statuses statuses'
    missing_evals total_evals :
  (∀ x, x ∈ statuses ↔ x ∈ statuses') →
  compute_overall_status self statuses missing_evals total_evals
  = compute_overall_status self statuses' missing_evals total_evals.
Proof.
  intros Hsame. unfold compute_overall_status.
  rewrite (str_in_ext "red" statuses statuses'),
    (str_in_ext "yellow" statuses statuses') by done.
  destruct statuses as [|x l], statuses' as [|x' l']; try done.
  - exfalso. eapply not_elem_of_nil, Hsame. left.
  - exfalso. eapply not_elem_of_nil, Hsame. left.
Qed.

Lemma compute_overall_status_set_witness :
  compute_overall_status default_scorer [PyStr "green"; PyStr "red"] 1 10
  = compute_overall_status default_scorer
      [PyStr "red"; PyStr "green"; PyStr "red"] 1 10.
Proof.
  apply (compute_overall_status_set default_scorer).
  intros x. rewrite !elem_of_cons, !elem_of_nil. tauto.
Defined.

(** The shape of [compute_overall_status] on a list that is not empty: the
    test on the counts, then the weakest status, capped at yellow when the
    test holds. *)
Lemma compute_overall_status_nonempty self statuses missing_evals total_evals :
  statuses ≠ [] →
  compute_overall_status self statuses missing_evals total_evals
  = (capped ← too_many_missing self missing_evals total_evals;
     Ok (if capped : bool then
           if str_in "red" statuses then "red" else "yellow"
         else overall_of statuses)).
Proof.
  intros Hne. destruct statuses as [|x l]; [done|].
  unfold compute_overall_status, too_many_missing. rewrite Z.gtb_ltb.
  rewrite (overall_of_nonempty (x :: l)) by done.
  destruct (0 <? total_evals)%Z; cbn [mbind res_bind].
  - destruct (int_true_div _ _) as [q|e]; cbn [mbind res_bind]; [|done].
    destruct (PrimFloat.ltb (missing_eval_threshold self) q);
      destruct (str_in "red" (x :: l)); try done;
      by destruct (str_in "yellow" (x :: l)).
  - by destruct (str_in "red" (x :: l)), (str_in "yellow" (x :: l)).
Qed.

(** X3: one more status never improves the verdict of a list that already
    has one. *)
Theorem one_more_status_never_improves self x statuses
    missing_evals total_evals verdict :
  statuses ≠ [] →
  compute_overall_status self statuses missing_evals total_evals = Ok verdict →
  ∃ verdict',
    compute_overall_status self (x :: statuses) missing_evals total_evals
    = Ok verdict' ∧
    (status_rank verdict' ≤ status_rank verdict)%nat.
Proof.
  intros Hne. rewrite !compute_overall_status_nonempty by done.
  destruct (too_many_missing _ _ _) as [capped|e]; res_simpl; [|done].
  intros [= <-]. eexists. split; [done|].
  rewrite !overall_of_nonempty by done.
  change (str_in ?s (x :: statuses))
    with (str_eq_val s x || str_in s statuses).
  destruct capped, (str_eq_val "red" x), (str_eq_val "yellow" x),
    (str_in "red" statuses), (str_in "yellow" statuses); cbn; lia.
Qed.

Lemma one_more_status_never_improves_witness :
  compute_overall_status default_scorer [PyStr "green"] 0 10 = Ok "green" ∧
  ∃ verdict',
    compute_overall_status default_scorer [PyStr "yellow"; PyStr "green"] 0 10
    = Ok verdict' ∧
    (status_rank verdict' ≤ status_rank "green")%nat.
Proof.
  split; [reflexivity|].
  apply (one_more_status_never_improves default_scorer (PyStr "yellow")
           [PyStr "green"] 0 10 "green"); [discriminate|reflexivity].
Defined.

(** X4: the counts can only lower a green verdict to yellow: whatever
    [compute_overall_status] returns with counts is what it returns without
    them, except that green may have become yellow. *)
Theorem missing_counts_only_cap self statuses missing_evals total_evals verdict :
  compute_overall_status self statuses missing_evals total_evals = Ok verdict →
  compute_overall_status self statuses 0 0 = Ok verdict ∨
  (verdict = "yellow" ∧ compute_overall_status self statuses 0 0 = Ok "green").
Proof.
  rewrite compute_overall_status_no_counts.
  destruct (decide (length statuses = 0)) as [Hnil|Hne].
  - destruct statuses; [|done]. cbn. auto.
  - assert (statuses ≠ []) as Hne' by (by destruct statuses).
    rewrite compute_overall_status_nonempty by done.
    destruct (too_many_missing _ _ _) as [capped|e]; res_simpl; [|done].
    intros [= <-]. fold (overall_of statuses).
    rewrite !overall_of_nonempty by done.
    destruct capped, (str_in "red" statuses), (str_in "yellow" statuses); auto.
Qed.

Lemma missing_counts_only_cap_witness :
  compute_overall_status default_scorer [PyStr "green"] 1 10 = Ok "yellow" ∧
  (compute_overall_status default_scorer [PyStr "green"] 0 0 = Ok "yellow" ∨
   ("yellow" = "yellow" ∧
    compute_overall_status default_scorer [PyStr "green"] 0 0 = Ok "green")).
Proof.
  split; [vm_compute; reflexivity|].
  apply (missing_counts_only_cap default_scorer [PyStr "green"] 1 10 "yellow").
  vm_compute. reflexivity.
Defined.

(** X5: [compute_overall_status] returns one of the three statuses or
    raises [OverflowError]; it never divides by zero, and with
    [total_evals <= 0] it never raises. *)
Theorem compute_overall_status_outcomes self statuses missing_evals total_evals :
  match compute_overall_status self statuses missing_evals total_evals with
  | Ok verdict => verdict = "red" ∨ verdict = "yellow" ∨ verdict = "green"
  | Raise e =>
      (0 < total_evals)%Z ∧
      e = OverflowError "integer division result too large for a float"
  end.
Proof.
  destruct statuses as [|x l]; [cbn; auto|].
  unfold compute_overall_status.
  destruct (0 <? total_evals)%Z eqn:Htotal; cbn [mbind res_bind].
  - unfold int_true_div.
    assert ((total_evals =? 0)%Z = false) as -> by lia.
    destruct (SFdiv _ _ _ _); cbn [mbind res_bind];
      try (split; [lia|done]);
      repeat match goal with
             | |- context [if ?b then _ else _] => destruct b
             end; auto.
  - destruct (str_in "red" (x :: l)), (str_in "yellow" (x :: l)); auto.
Qed.

(** ** More on [score_results] *)

Lemma status_of_cell_ordered self metric_name x :
  (∃ v, status_of_cell self metric_name x = Ok v) ↔ unordered x = false.
Proof. destruct x; cbn; split; try done; eauto; by intros [? ?]. Qed.

Lemma status_of_cell_raises self metric_name x e :
  status_of_cell self metric_name x = Raise e → ∃ msg, e = TypeError msg.
Proof. destruct x; cbn; try done; intros [= <-]; eauto. Qed.

Lemma mapM_res_raises {A B} (P : exn → Prop) (f : A → res B) l e :
  (∀ x e, f x = Raise e → P e) → mapM f l = Raise e → P e.
Proof.
  intros Hf. induction l as [|x l IH]; [done|]. rewrite res_mapM_cons.
  destruct (f x) as [y|e'] eqn:Hx; res_simpl; [|intros [= <-]; eauto].
  destruct (mapM f l); res_simpl; [done|]. intros [= <-]. by apply IH.
Qed.

Lemma foldlM_res_raises {A S} (P : exn → Prop) (f : S → A → res S) l s e :
  (∀ s x e, f s x = Raise e → P e) → foldlM f s l = Raise e → P e.
Proof.
  intros Hf. revert s. induction l as [|x l IH]; intros s; [done|].
  rewrite res_foldlM_cons.
  destruct (f s x) as [s'|e'] eqn:Hx; res_simpl; [|intros [= <-]; eauto].
  apply IH.
Qed.

Lemma score_results_raises self df e :
  score_results self df = Raise e → ∃ msg, e = TypeError msg.
Proof.
  unfold score_results.
  destruct (foldlM _ _ _) as [d1|e1] eqn:Hloop; res_simpl.
  - match goal with
    | |- context [mapM ?f ?l] => destruct (mapM f l) as [vals|e2] eqn:Hov
    end; res_simpl; [done|].
    intros [= <-].
    eapply (mapM_res_raises (λ e, ∃ msg, e = TypeError msg)); [|exact Hov].
    intros r e'. cbn beta. by rewrite compute_row_status_total.
  - intros [= <-].
    eapply (foldlM_res_raises (λ e, ∃ msg, e = TypeError msg)); [|exact Hloop].
    intros d col e'. unfold score_column.
    destruct (endswith col "_score"); [|done].
    destruct (mapM _ _) as [vals|e2] eqn:Hvals; res_simpl; [done|].
    intros [= <-].
    eapply (mapM_res_raises (λ e, ∃ msg, e = TypeError msg)); [|exact Hvals].
    intros x e'. apply status_of_cell_raises.
Qed.

Lemma row_loop_succeeds self cs (r : gmap string pyval) :
  (∃ r1, foldlM (row_score_column self) r cs = Ok r1) ↔
  ∀ col, col ∈ cs → endswith col "_score" = true →
         unordered (cell r col) = false.
Proof.
  rewrite row_loop_score_columns, row_loop_writes.
  2:{ apply Forall_forall. intros c Hc%list_elem_of_In%filter_In. tauto. }
  unfold writes. split.
  - intros [r1 Hr1] col Hcol Hs.
    destruct (mapM _ _) as [W|e] eqn:HW; [|done].
    apply mapM_res_Ok in HW.
    assert (col ∈ List.filter (λ c, endswith c "_score") cs) as Hin.
    { apply list_elem_of_In, filter_In. by rewrite <- list_elem_of_In. }
    apply list_elem_of_lookup in Hin as [j Hj].
    destruct (Forall2_lookup_l _ _ _ _ _ HW Hj) as (kv & _ & Hkv).
    cbn beta in Hkv. apply (status_of_cell_ordered self (str_replace col "_score" "")).
    destruct (status_of_cell _ _ _); [eauto|done].
  - intros Hnum.
    assert (∃ W, mapM (λ c, v ← status_of_cell self (str_replace c "_score" "")
                                  (cell r c);
                            Ok (status_col c, v))
                   (List.filter (λ c, endswith c "_score") cs) = Ok W)
      as [W ->]; [|by eexists].
    assert (Forall (λ c, unordered (cell r c) = false)
              (List.filter (λ c, endswith c "_score") cs)) as Hall.
    { apply Forall_forall. intros c [Hc Hs]%list_elem_of_In%filter_In.
      apply Hnum; [by apply list_elem_of_In|done]. }
    induction Hall as [|c l Hc _ [W HW]]; [by exists []|].
    apply (status_of_cell_ordered self (str_replace c "_score" "")) in Hc
      as [v Hv].
    exists ((status_col c, v) :: W). rewrite res_mapM_cons, Hv. res_simpl.
    by rewrite HW.
Qed.

(** X6: [score_results] raises exactly when some cell of a column whose
    label ends in [_score] is [None], a string or a list, and what it raises
    is the [TypeError] of the comparison with a threshold; floats and
    booleans, missing cells included, never make it raise. *)
Theorem score_results_raises_iff self df :
  match score_results self df with
  | Ok _ =>
      ∀ r col, r ∈ rows df → col ∈ columns df →
               endswith col "_score" = true → unordered (cell r col) = false
  | Raise e =>
      (∃ msg, e = TypeError msg) ∧
      ∃ r col, r ∈ rows df ∧ col ∈ columns df ∧
               endswith col "_score" = true ∧ unordered (cell r col) = true
  end.
Proof.
  destruct (score_results self df) as [scored|e] eqn:Hres.
  - apply score_results_rows in Hres as [_ Hrows]. cbv zeta in Hrows.
    intros r col Hr Hcol Hs.
    apply list_elem_of_lookup in Hr as [i Hi].
    destruct (Forall2_lookup_l _ _ _ _ _ Hrows Hi) as (r' & _ & r1 & Hr1 & _).
    eapply (row_loop_succeeds self (columns df) r); eauto.
  - split; [by eapply score_results_raises|].
    destruct (decide (Forall (λ r, Forall (λ col,
                endswith col "_score" = true → unordered (cell r col) = false)
                (columns df)) (rows df))) as [Hall|Hsome].
    + exfalso.
      assert (∃ rows1, Forall2 (λ r r1,
                foldlM (row_score_column self) r (columns df) = Ok r1)
                (rows df) rows1) as [rows1 Hrows1].
      { induction Hall as [|r l Hr _ [rows1 IH]]; [by exists []|].
        destruct (proj2 (row_loop_succeeds self (columns df) r)) as [r1 Hr1].
        { rewrite Forall_forall in Hr. auto. }
        exists (r1 :: rows1). by constructor. }
      assert (∃ scored, score_results self df = Ok scored) as [? Hok];
        [|by rewrite Hok in Hres].
      eexists {| columns := _; rows := _ |}.
      apply score_results_rows. cbv zeta. cbn [columns rows].
      split; [reflexivity|].
      eapply Forall2_fmap_r, Forall2_impl; [exact Hrows1|].
      intros r r1 Hr1. cbn beta. exists r1. split; [done|reflexivity].
    + apply not_Forall_Exists in Hsome; [|apply _].
      apply Exists_exists in Hsome as (r & Hr & Hcols).
      apply not_Forall_Exists in Hcols; [|apply _].
      apply Exists_exists in Hcols as (col & Hcol & Hbad).
      exists r, col. split; [done|]. split; [done|].
      destruct (endswith col "_score") eqn:Hs;
        [|exfalso; apply Hbad; intros ?; congruence].
      destruct (unordered (cell r col)) eqn:Hn; [done|].
      exfalso. apply Hbad. intros _. congruence.
Qed.

Lemma is_status_name k : endswith k "_status" = true → status_name k.
Proof. intros [p ->]%endswith_inv. by exists p. Qed.

Lemma lookup_apply_writes_ne (r : gmap string pyval) W k :
  k ∉ W.*1 → apply_writes r W !! k = r !! k.
Proof.
  unfold apply_writes. revert r.
  induction W as [|[k' v] W IH]; intros r Hk; [done|].
  cbn [foldl fst snd]. cbn in Hk. rewrite not_elem_of_cons in Hk.
  destruct Hk as [Hne Hk]. rewrite IH by done. by rewrite lookup_insert_ne.
Qed.

Lemma lookup_apply_writes_written (r : gmap string pyval) W k :
  k ∈ W.*1 → ∃ v, (k, v) ∈ W ∧ apply_writes r W !! k = Some v.
Proof.
  unfold apply_writes. revert r.
  induction W as [|[k' v] W IH]; intros r Hk; [by apply elem_of_nil in Hk|].
  cbn [foldl fst snd].
  destruct (decide (k ∈ W.*1)) as [Hin|Hout].
  - destruct (IH (<[k' := v]> r) Hin) as (v' & Hv' & Hl).
    exists v'. split; [by right|done].
  - cbn in Hk. apply elem_of_cons in Hk as [->|]; [|done].
    exists v. split; [by left|].
    pose proof (lookup_apply_writes_ne (<[k' := v]> r) W k' Hout) as Hl.
    unfold apply_writes in Hl. rewrite Hl. by rewrite lookup_insert_eq.
Qed.

Lemma scored_row self df scored i r' :
  score_results self df = Ok scored →
  rows scored !! i = Some r' →
  let cols1 := foldl columns_after_score (columns df) (columns df) in
  let cols2 := if bool_decide ("toxicity_is_toxic" ∈ cols1)
               then add_column cols1 "toxicity_status" else cols1 in
  ∃ r W,
    rows df !! i = Some r ∧
    writes self r (List.filter (λ c, endswith c "_score") (columns df)) = Ok W ∧
    r' = row_overall cols2 (row_toxicity cols1 (apply_writes r W)).
Proof.
  intros [_ Hrows]%score_results_rows Hi. cbv zeta in *.
  destruct (Forall2_lookup_r _ _ _ _ _ Hrows Hi) as (r & Hr & r1 & Hr1 & ->).
  rewrite row_loop_score_columns, row_loop_writes in Hr1.
  2:{ apply Forall_forall. intros c Hc%list_elem_of_In%filter_In. tauto. }
  destruct (writes _ _ _) as [W|] eqn:HW; [|done]. res_simpl.
  injection Hr1 as <-. by exists r, W.
Qed.

Lemma scored_columns self df scored :
  score_results self df = Ok scored →
  let cols1 := foldl columns_after_score (columns df) (columns df) in
  let cols2 := if bool_decide ("toxicity_is_toxic" ∈ cols1)
               then add_column cols1 "toxicity_status" else cols1 in
  columns scored = add_column cols2 "overall_status" ∧
  extends (columns df) cols1 ∧ extends cols1 cols2.
Proof.
  intros [Hcols _]%score_results_rows. cbv zeta in *. split; [done|].
  split; [apply score_loop_extends|].
  case_bool_decide; [|apply extends_refl].
  apply extends_add_column, toxicity_status_name.
Qed.

(** X7: scoring keeps the table's shape: the rows stay as many, the
    original columns stay first and in order, the columns added after them
    are all named [<m>_status], and no entry of a row outside the
    [_status] labels is added, removed or changed. *)
Theorem score_results_preserves_input self df scored :
  score_results self df = Ok scored →
  length (rows scored) = length (rows df) ∧
  extends (columns df) (columns scored) ∧
  ∀ i r r' c,
    rows df !! i = Some r → rows scored !! i = Some r' →
    endswith c "_status" = false → r' !! c = r !! c.
Proof.
  intros Hres. split; [|split].
  - apply score_results_rows in Hres as [_ Hrows]. cbv zeta in Hrows.
    symmetry. by eapply Forall2_length.
  - destruct (scored_columns _ _ _ Hres) as (-> & H1 & H2).
    eapply extends_trans; [exact H1|]. eapply extends_trans; [exact H2|].
    apply extends_add_column, overall_status_name.
  - intros i r r' c Hr Hr' Hc.
    destruct (scored_row _ _ _ _ _ Hres Hr') as (r0 & W & Hr0 & HW & ->).
    rewrite Hr in Hr0. injection Hr0 as <-.
    assert (¬ status_name c) as Hns.
    { intros Hn%status_name_is_status. congruence. }
    unfold row_overall, row_toxicity.
    rewrite lookup_insert_ne by (intros <-; apply Hns, overall_status_name).
    case_bool_decide.
    + rewrite lookup_insert_ne by (intros <-; apply Hns, toxicity_status_name).
      apply lookup_apply_writes_ne. intros (c' & _ & ->)%(writes_keys_cols _ _ _ _ _ HW).
      apply Hns, status_col_status_name.
    + apply lookup_apply_writes_ne. intros (c' & _ & ->)%(writes_keys_cols _ _ _ _ _ HW).
      apply Hns, status_col_status_name.
Qed.

Lemma score_to_status_is_status self score metric_name :
  is_status (score_to_status self score metric_name).
Proof.
  unfold score_to_status, is_status.
  destruct (String.eqb metric_name "toxicity").
  - destruct (PrimFloat.leb 1 score); auto.
  - destruct (if String.eqb metric_name "rouge" then _ else _)
      as [lower upper].
    destruct (PrimFloat.ltb score lower); [auto|].
    destruct (PrimFloat.ltb score upper); auto.
Qed.

Lemma status_of_cell_is_status self metric_name x v :
  status_of_cell self metric_name x = Ok v → ∃ s, v = PyStr s ∧ is_status s.
Proof.
  destruct x; cbn; try done; intros [= <-]; eexists; split; try reflexivity;
    apply score_to_status_is_status.
Qed.

Lemma overall_of_is_status sts : is_status (overall_of sts).
Proof.
  unfold overall_of, is_status. destruct sts; [auto|].
  repeat match goal with
         | |- context [if ?b then _ else _] => destruct b
         end; auto.
Qed.

Lemma row_status_is_status cols r : is_status (row_status cols r).
Proof.
  unfold row_status.
  destruct (_ && _); [left; reflexivity|apply overall_of_is_status].
Qed.

(** X8: a scored table has, for every score column of the input, the
    status column named after it, and an [overall_status] column; every row
    holds one of the strings red, yellow and green in each of them. *)
Theorem score_results_status_columns self df scored :
  score_results self df = Ok scored →
  ∀ k, k = "overall_status" ∨
       (∃ col, col ∈ columns df ∧ endswith col "_score" = true ∧
               k = status_col col) →
    k ∈ columns scored ∧
    ∀ r', r' ∈ rows scored → ∃ s, r' !! k = Some (PyStr s) ∧ is_status s.
Proof.
  intros Hres k Hk.
  destruct (scored_columns _ _ _ Hres) as (Hcols & H1 & H2).
  split.
  - rewrite Hcols, elem_of_add_column.
    destruct Hk as [->|(col & Hcol & Hs & ->)]; [by right|left].
    eapply extends_subseteq; [exact H2|]. by apply score_loop_status_cols.
  - intros r' [i Hi]%list_elem_of_lookup.
    destruct (scored_row _ _ _ _ _ Hres Hi) as (r & W & Hr & HW & ->).
    unfold row_overall.
    destruct (decide (k = "overall_status")) as [->|Hov].
    { rewrite lookup_insert_eq. eexists. split; [reflexivity|].
      apply row_status_is_status. }
    rewrite lookup_insert_ne by done.
    destruct Hk as [->|(col & Hcol & Hs & ->)]; [done|].
    unfold row_toxicity.
    assert (∃ s, apply_writes r W !! status_col col = Some (PyStr s) ∧
                 is_status s) as Hw.
    { destruct (lookup_apply_writes_written r W (status_col col))
        as (v & Hv & ->).
      - apply writes_spec in HW.
        assert (col ∈ List.filter (λ c, endswith c "_score") (columns df))
          as [j Hj]%list_elem_of_lookup.
        { apply list_elem_of_In, filter_In. by rewrite <- list_elem_of_In. }
        destruct (Forall2_lookup_l _ _ _ _ _ HW Hj) as ([k v] & Hkv & Hk & _).
        cbn in Hk. subst k. apply list_elem_of_fmap. exists (status_col col, v).
        split; [done|]. by eapply list_elem_of_lookup_2.
      - apply writes_spec in HW.
        apply list_elem_of_lookup in Hv as [j Hj].
        destruct (Forall2_lookup_r _ _ _ _ _ HW Hj) as (c' & _ & _ & Hst).
        cbn in Hst. apply status_of_cell_is_status in Hst as (s & -> & Hs').
        by exists s. }
    case_bool_decide; [|done].
    destruct (decide (status_col col = "toxicity_status")) as [->|Hne].
    + rewrite lookup_insert_eq. eexists. split; [reflexivity|].
      unfold is_status. destruct (truthy _); auto.
    + by rewrite lookup_insert_ne.
Qed.

(** X9: the status column of a score column holds, row by row, the
    classification of that row's score, provided no other score column maps
    to the same status label and the label is neither [overall_status] nor,
    in a table with a [toxicity_is_toxic] column, [toxicity_status]. *)
Theorem score_results_classifies self df scored i r r' col :
  score_results self df = Ok scored →
  rows df !! i = Some r → rows scored !! i = Some r' →
  col ∈ columns df → endswith col "_score" = true →
  Forall (λ c, endswith c "_score" = true →
               status_col c = status_col col → c = col) (columns df) →
  status_col col ≠ "overall_status" →
  (status_col col = "toxicity_status" → "toxicity_is_toxic" ∉ columns df) →
  ∃ v, status_of_cell self (str_replace col "_score" "") (cell r col) = Ok v ∧
       r' !! status_col col = Some v.
Proof.
  intros Hres Hr Hr' Hcol Hs Huniq Hov Htox.
  destruct (scored_row _ _ _ _ _ Hres Hr') as (r0 & W & Hr0 & HW & ->).
  rewrite Hr in Hr0. injection Hr0 as <-.
  destruct (scored_columns _ _ _ Hres) as (_ & H1 & _).
  pose proof (writes_spec _ _ _ _ HW) as Hspec.
  assert (col ∈ List.filter (λ c, endswith c "_score") (columns df))
    as [j Hj]%list_elem_of_lookup.
  { apply list_elem_of_In, filter_In. by rewrite <- list_elem_of_In. }
  destruct (Forall2_lookup_l _ _ _ _ _ Hspec Hj) as ([k v] & Hkv & Hk & Hv).
  cbn in Hk, Hv. subst k. exists v. split; [done|].
  unfold row_overall, row_toxicity. rewrite lookup_insert_ne by done.
  assert (apply_writes r W !! status_col col = Some v) as Hw.
  { apply apply_writes_lookup.
    - intros [k' v'] [j' Hj']%list_elem_of_lookup Hk'. cbn in Hk'. cbn.
      destruct (Forall2_lookup_r _ _ _ _ _ Hspec Hj') as (c' & Hc' & Hk'' & Hv').
      cbn in Hk'', Hv'. subst k'.
      assert (c' = col) as ->.
      { pose proof (list_elem_of_lookup_2 _ _ _ Hc') as Hin.
        apply list_elem_of_In, filter_In in Hin as [Hin Hs'].
        rewrite Forall_forall in Huniq.
        apply Huniq; [by apply list_elem_of_In|done|by symmetry]. }
      congruence.
    - left. apply list_elem_of_fmap. exists (status_col col, v).
      split; [done|]. by eapply list_elem_of_lookup_2. }
  case_bool_decide as Hflag; [|done].
  rewrite lookup_insert_ne; [done|].
  intros Heq. symmetry in Heq. apply (Htox Heq).
  by apply (extends_flag _ _ H1).
Qed.

(** X10: in a scored table the overall status of a row is never better
    than any status the row shows in a [_status] column. *)
Theorem overall_status_is_weakest_link self df scored r' c s :
  score_results self df = Ok scored →
  r' ∈ rows scored → c ∈ columns scored → endswith c "_status" = true →
  cell r' c = PyStr s → is_status s →
  ∃ o, r' !! "overall_status" = Some (PyStr o) ∧
       (status_rank o ≤ status_rank s)%nat.
Proof.
  intros Hres [i Hi]%list_elem_of_lookup Hc Hst Hcell Hs.
  destruct (scored_row _ _ _ _ _ Hres Hi) as (r & W & Hr & HW & ->).
  destruct (scored_columns _ _ _ Hres) as (Hcols & _ & _).
  cbv zeta in *.
  set (cols1 := foldl columns_after_score (columns df) (columns df)) in *.
  set (cols2 := if bool_decide ("toxicity_is_toxic" ∈ cols1)
                then add_column cols1 "toxicity_status" else cols1) in *.
  set (m2 := row_toxicity cols1 (apply_writes r W)) in *.
  unfold row_overall in *. rewrite lookup_insert_eq.
  eexists. split; [reflexivity|].
  destruct (decide (c = "overall_status")) as [->|Hov].
  { unfold cell in Hcell. rewrite lookup_insert_eq in Hcell. cbn in Hcell.
    injection Hcell as <-. done. }
  rewrite cell_insert_ne in Hcell by done.
  rewrite Hcols, elem_of_add_column in Hc. destruct Hc as [Hc|]; [|done].
  unfold row_status. destruct (_ && _); [cbn; lia|].
  assert (PyStr s ∈ map (cell m2)
            (List.filter (λ col, endswith col "_status") cols2)) as Hin.
  { apply elem_of_status_cells. by exists c. }
  rewrite overall_of_nonempty by (intros Hnil; rewrite Hnil in Hin;
                                  by apply elem_of_nil in Hin).
  destruct Hs as [->|[->| ->]].
  - apply str_in_spec in Hin. by rewrite Hin.
  - apply str_in_spec in Hin. rewrite Hin.
    destruct (str_in "red" _); cbn; lia.
  - repeat match goal with
           | |- context [if ?b then _ else _] => destruct b
           end; cbn; lia.
Qed.

(** X11: in a scored table a row whose [toxicity_is_toxic] cell is truthy
    has both its toxicity status and its overall status red, whatever its
    other cells are. *)
Theorem toxic_flag_vetoes_row self df scored r' :
  score_results self df = Ok scored →
  r' ∈ rows scored → "toxicity_is_toxic" ∈ columns scored →
  truthy (cell r' "toxicity_is_toxic") = true →
  r' !! "toxicity_status" = Some (PyStr "red") ∧
  r' !! "overall_status" = Some (PyStr "red").
Proof.
  intros Hres [i Hi]%list_elem_of_lookup Hflag Htruthy.
  destruct (scored_row _ _ _ _ _ Hres Hi) as (r & W & Hr & HW & ->).
  destruct (scored_columns _ _ _ Hres) as (Hcols & H1 & H2).
  cbv zeta in *.
  set (cols1 := foldl columns_after_score (columns df) (columns df)) in *.
  set (cols2 := if bool_decide ("toxicity_is_toxic" ∈ cols1)
                then add_column cols1 "toxicity_status" else cols1) in *.
  rewrite cell_row_overall in Htruthy by apply flag_no_status.
  assert ("toxicity_is_toxic" ∈ cols2) as Hflag2.
  { rewrite Hcols, elem_of_add_column in Hflag. by destruct Hflag. }
  assert ("toxicity_is_toxic" ∈ cols1) as Hflag1.
  { by apply (extends_flag _ _ H2). }
  unfold row_overall. rewrite lookup_insert_ne by done.
  rewrite lookup_insert_eq. unfold row_status.
  rewrite (bool_decide_eq_true_2 _ Hflag2), Htruthy. cbn [andb].
  split; [|done].
  rewrite cell_row_toxicity in Htruthy by apply flag_no_status.
  unfold row_toxicity. rewrite (bool_decide_eq_true_2 _ Hflag1).
  rewrite lookup_insert_eq.
  rewrite cell_apply_writes in Htruthy
    by (by eapply writes_keys || apply flag_no_status).
  rewrite cell_apply_writes
    by (by eapply writes_keys || apply flag_no_status).
  by rewrite Htruthy.
Qed.

Lemma score_results_preserves_input_witness :
  length (rows example_scored) = length (rows example_table) ∧
  extends (columns example_table) (columns example_scored) ∧
  ∀ i r r' c,
    rows example_table !! i = Some r → rows example_scored !! i = Some r' →
    endswith c "_status" = false → r' !! c = r !! c.
Proof.
  apply (score_results_preserves_input default_scorer example_table).
  vm_compute. reflexivity.
Defined.

Lemma score_results_status_columns_witness :
  "relevancy_status" ∈ columns example_scored ∧
  ∀ r', r' ∈ rows example_scored →
        ∃ s, r' !! "relevancy_status" = Some (PyStr s) ∧ is_status s.
Proof.
  apply (score_results_status_columns default_scorer example_table).
  - vm_compute. reflexivity.
  - right. exists "relevancy_score".
    split; [vm_compute; repeat constructor|]. split; reflexivity.
Defined.

Lemma score_results_classifies_witness :
  ∃ v, status_of_cell default_scorer (str_replace "relevancy_score" "_score" "")
         (cell (default ∅ (rows example_table !! 1%nat)) "relevancy_score")
       = Ok v ∧
       default ∅ (rows example_scored !! 1%nat) !! status_col "relevancy_score"
       = Some v.
Proof.
  apply (score_results_classifies default_scorer example_table example_scored
           1 _ _ "relevancy_score").
  - vm_compute. reflexivity.
  - reflexivity.
  - reflexivity.
  - vm_compute. repeat constructor.
  - reflexivity.
  - repeat constructor; vm_compute; intros ? ?;
      first [reflexivity | discriminate].
  - vm_compute. discriminate.
  - vm_compute. discriminate.
Defined.

Lemma overall_status_is_weakest_link_witness :
  ∃ r', rows example_scored !! 1%nat = Some r' ∧
        ∃ o, r' !! "overall_status" = Some (PyStr o) ∧
             (status_rank o ≤ status_rank "yellow")%nat.
Proof.
  eexists. split; [reflexivity|].
  eapply (overall_status_is_weakest_link default_scorer example_table
            example_scored _ "relevancy_status" "yellow").
  - vm_compute. reflexivity.
  - apply (list_elem_of_lookup_2 _ 1%nat). reflexivity.
  - vm_compute. repeat constructor.
  - reflexivity.
  - reflexivity.
  - right. left. reflexivity.
Defined.

Lemma toxic_flag_vetoes_row_witness :
  ∃ r', rows toxic_scored !! 0%nat = Some r' ∧
        cell r' "relevancy_status" = PyStr "green" ∧
        r' !! "toxicity_status" = Some (PyStr "red") ∧
        r' !! "overall_status" = Some (PyStr "red").
Proof.
  eexists. split; [reflexivity|]. split; [reflexivity|].
  eapply (toxic_flag_vetoes_row default_scorer toxic_table toxic_scored).
  - vm_compute. reflexivity.
  - apply (list_elem_of_lookup_2 _ 0%nat). reflexivity.
  - vm_compute. repeat constructor.
  - reflexivity.
Defined.

(** ** The DSPy programs *)

Lemma float_lt_le (x y : float) : (x <? y)%float = true → (x <=? y)%float = true.
Proof.
  rewrite FloatAxioms.ltb_spec, FloatAxioms.leb_spec.
  unfold SFltb, SFleb. by destruct (SFcompare _ _) as [[]|].
Qed.

Lemma lex_compare_refl a : lex_compare a a = Eq.
Proof. unfold lex_compare. by rewrite !Z.compare_refl. Qed.

Lemma not_nan_is_nan (x : float) : Prim2SF x ≠ S754_nan → is_nan x = false.
Proof.
  intros Hx. unfold is_nan. rewrite FloatAxioms.eqb_spec. unfold SFeqb.
  by rewrite (SFcompare_rank _ _ Hx Hx), lex_compare_refl.
Qed.

Lemma float_lt_not_nan (x y : float) :
  (x <? y)%float = true → is_nan x = false ∧ is_nan y = false.
Proof.
  rewrite FloatAxioms.ltb_spec. intros [Hx Hy]%SFltb_not_nan.
  split; by apply not_nan_is_nan.
Qed.

Lemma float_le_not_nan (x y : float) :
  (x <=? y)%float = true → is_nan x = false ∧ is_nan y = false.
Proof.
  rewrite FloatAxioms.leb_spec. intros [Hx Hy]%SFleb_not_nan.
  split; by apply not_nan_is_nan.
Qed.

Lemma is_nan_ltb_l (x y : float) : is_nan x = true → (x <? y)%float = false.
Proof.
  intros Hn. destruct (x <? y)%float eqn:Hlt; [|done].
  apply float_lt_not_nan in Hlt as [Hx _]. congruence.
Qed.

Lemma is_nan_leb_l (x y : float) : is_nan x = true → (x <=? y)%float = false.
Proof.
  intros Hn. destruct (x <=? y)%float eqn:Hle; [|done].
  apply float_le_not_nan in Hle as [Hx _]. congruence.
Qed.

Lemma is_nan_leb_r (x y : float) : is_nan y = true → (x <=? y)%float = false.
Proof.
  intros Hn. destruct (x <=? y)%float eqn:Hle; [|done].
  apply float_le_not_nan in Hle as [_ Hy]. congruence.
Qed.

Lemma py_clamp_range (score : float) : unit_interval (py_max 0 (py_min 1 score)).
Proof.
  unfold unit_interval, py_max, py_min.
  destruct (score <? 1)%float eqn:H1.
  - destruct (0 <? score)%float eqn:H0.
    + split; by apply float_lt_le.
    + split; reflexivity.
  - replace (0 <? 1)%float with true by reflexivity. split; reflexivity.
Qed.

Lemma bounded_score_range float_of_str x :
  unit_interval (bounded_score float_of_str x).
Proof.
  assert (unit_interval 0) as H0 by (split; reflexivity).
  unfold bounded_score. destruct x as [|b|f|s|l]; try done.
  - apply py_clamp_range.
  - apply py_clamp_range.
  - destruct (float_of_str s); [apply py_clamp_range|done].
Qed.

(** X12: the clamp of the DSPy programs in closed form: a score that is
    NaN or at least 1 becomes 1.0, a score of at most 0 becomes 0.0, and
    every other score is kept. *)
Theorem bounded_score_closed_form float_of_str (f : float) :
  bounded_score float_of_str (PyFloat f)
  = if is_nan f then 1%float
    else if (f <=? 0)%float then 0%float
    else if (1 <=? f)%float then 1%float
    else f.
Proof.
  cbn [bounded_score]. unfold py_max, py_min.
  destruct (is_nan f) eqn:Hn.
  { rewrite (is_nan_ltb_l f 1 Hn). reflexivity. }
  assert (is_nan 0 = false) as Hn0 by reflexivity.
  assert (is_nan 1 = false) as Hn1 by reflexivity.
  rewrite (float_not_lt_ge f 1 Hn Hn1).
  destruct (1 <=? f)%float eqn:H1; cbn [negb].
  - replace (0 <? 1)%float with true by reflexivity.
    destruct (f <=? 0)%float eqn:H0; [|done].
    pose proof (float_le_trans 1 f 0 H1 H0) as Habs. by vm_compute in Habs.
  - rewrite (float_not_lt_ge 0 f Hn0 Hn).
    by destruct (f <=? 0)%float.
Qed.

(** ** The metrics in normal form *)

Lemma validate_inputs_raises q r ref e :
  validate_inputs q r ref = Raise e → ∃ msg, e = ValueError msg.
Proof.
  unfold validate_inputs.
  destruct q as [| | |sq|]; try (intros [= <-]; eauto; fail).
  destruct (String.eqb _ _); [intros [= <-]; eauto|].
  destruct r; try (intros [= <-]; eauto; fail).
  destruct ref; try done; intros [= <-]; eauto.
Qed.

Lemma validate_inputs_any_response q s s' ref :
  validate_inputs q (PyStr s) ref = validate_inputs q (PyStr s') ref.
Proof. reflexivity. Qed.

Lemma traced_bind_invoke_Ok {A B} n args (a : A) (f : A → traced B) :
  (invoke n args (Ok a) ≫= f) = ((Call n args :: (f a).1)%list, (f a).2).
Proof. unfold invoke. cbn. by destruct (f a). Qed.

Lemma traced_bind_invoke_Raise {A B} n args e (f : A → traced B) :
  (invoke n args (Raise e) ≫= f) = ([Call n args], Raise e).
Proof. reflexivity. Qed.

Lemma relevancy_invalid ext q r ref e :
  validate_inputs q r PyNone = Raise e →
  evaluate (RelevancyMetric ext) q r ref = ([], Raise e).
Proof.
  intros Hv. cbn [evaluate RelevancyMetric]. unfold RelevancyMetric_evaluate.
  by rewrite Hv, traced_bind_pure_Raise.
Qed.

Lemma relevancy_valid ext q s ref :
  validate_inputs q (PyStr s) PyNone = Ok tt →
  evaluate (RelevancyMetric ext) q (PyStr s) ref
  = if String.eqb (strip s) ""
    then ([], Ok [("score", PyFloat 0); ("explanation", PyStr "Empty response")])
    else ([Call "RelevancyProgram" [q; PyStr s]],
          Ok match relevancy_program ext q (PyStr s) with
             | Ok d => d
             | Raise e =>
                 [("score", PyFloat 0);
                  ("explanation",
                   PyStr ("Error evaluating relevancy: " +:+ str_exn e))]
             end).
Proof.
  intros Hv. cbn [evaluate RelevancyMetric]. unfold RelevancyMetric_evaluate.
  rewrite Hv, traced_bind_pure_Ok. cbn [py_strip].
  rewrite traced_bind_pure_Ok. cbn [truthy].
  destruct (String.eqb (strip s) ""); cbn [negb]; [reflexivity|].
  by destruct (relevancy_program ext q (PyStr s)).
Qed.

Lemma correctness_invalid ext q r ref e :
  validate_inputs q r ref = Raise e →
  evaluate (CorrectnessMetric ext) q r ref = ([], Raise e).
Proof.
  intros Hv. cbn [evaluate CorrectnessMetric].
  unfold CorrectnessMetric_evaluate.
  by rewrite Hv, traced_bind_pure_Raise.
Qed.

Lemma correctness_valid ext q s ref :
  validate_inputs q (PyStr s) ref = Ok tt →
  evaluate (CorrectnessMetric ext) q (PyStr s) ref
  = if negb (truthy ref)
    then ([], Ok [("score", PyFloat 0);
                  ("explanation",
                   PyStr "Cannot evaluate correctness without a reference answer")])
    else if String.eqb (strip s) ""
    then ([], Ok [("score", PyFloat 0); ("explanation", PyStr "Empty response")])
    else ([Call "CorrectnessProgram" [q; PyStr s; ref]],
          Ok match correctness_program ext q (PyStr s) ref with
             | Ok d => d
             | Raise e =>
                 [("score", PyFloat 0);
                  ("explanation",
                   PyStr ("Error evaluating correctness: " +:+ str_exn e))]
             end).
Proof.
  intros Hv. cbn [evaluate CorrectnessMetric].
  unfold CorrectnessMetric_evaluate.
  rewrite Hv, traced_bind_pure_Ok.
  destruct (negb (truthy ref)); [reflexivity|]. cbn [py_strip].
  rewrite traced_bind_pure_Ok. cbn [truthy].
  destruct (String.eqb (strip s) ""); cbn [negb]; [reflexivity|].
  by destruct (correctness_program ext q (PyStr s) ref).
Qed.

Lemma toxicity_invalid ext q r ref e :
  validate_inputs q r PyNone = Raise e →
  evaluate (ToxicityMetric ext) q r ref = ([], Raise e).
Proof.
  intros Hv. cbn [evaluate ToxicityMetric]. unfold ToxicityMetric_evaluate.
  by rewrite Hv, traced_bind_pure_Raise.
Qed.

Lemma toxicity_valid ext q s ref :
  validate_inputs q (PyStr s) PyNone = Ok tt →
  evaluate (ToxicityMetric ext) q (PyStr s) ref
  = if String.eqb (strip s) ""
    then ([], Ok [("is_toxic", PyBool false);
                  ("explanation", PyStr "Empty response");
                  ("toxicity_type", PyStr "none");
                  ("score", PyFloat 1)])
    else ([Call "ToxicityProgram" [PyStr s]],
          Ok match
               (result ← toxicity_program ext (PyStr s);
                is_toxic ← dict_getitem result "is_toxic";
                Ok (dict_set result "score"
                      (PyFloat (if truthy is_toxic then 0 else 1))))
             with
             | Ok d => d
             | Raise e =>
                 [("is_toxic", PyBool false);
                  ("explanation",
                   PyStr ("Error evaluating toxicity: " +:+ str_exn e));
                  ("toxicity_type", PyStr "error");
                  ("score", PyFloat 1)]
             end).
Proof.
  intros Hv. cbn [evaluate ToxicityMetric]. unfold ToxicityMetric_evaluate.
  rewrite Hv, traced_bind_pure_Ok. cbn [py_strip].
  rewrite traced_bind_pure_Ok. cbn [truthy].
  destruct (String.eqb (strip s) ""); cbn [negb]; [reflexivity|].
  destruct (toxicity_program ext (PyStr s)) as [result|e]; [|reflexivity].
  rewrite traced_bind_invoke_Ok. res_simpl.
  destruct (dict_getitem result "is_toxic"); res_simpl.
  - by rewrite traced_bind_pure_Ok.
  - by rewrite traced_bind_pure_Raise.
Qed.

Lemma rouge_invalid ext q r ref e :
  validate_inputs q r ref = Raise e →
  evaluate (RougeMetric ext) q r ref = ([], Raise e).
Proof.
  intros Hv. cbn [evaluate RougeMetric]. unfold RougeMetric_evaluate.
  by rewrite Hv, traced_bind_pure_Raise.
Qed.

Lemma rouge_valid ext q s ref :
  validate_inputs q (PyStr s) ref = Ok tt →
  ∃ t d, evaluate (RougeMetric ext) q (PyStr s) ref = (t, Ok d) ∧
         (length t ≤ 1)%nat ∧
         (negb (truthy ref) || String.eqb (strip s) "" = true → t = []).
Proof.
  intros Hv. cbn [evaluate RougeMetric]. unfold RougeMetric_evaluate.
  rewrite Hv, traced_bind_pure_Ok.
  destruct (negb (truthy ref)).
  { eexists [], _. split; [reflexivity|]. split; [cbn; lia|done]. }
  cbn [py_strip]. rewrite traced_bind_pure_Ok. cbn [truthy].
  destruct (String.eqb (strip s) ""); cbn [negb orb].
  { eexists [], _. split; [reflexivity|]. split; [cbn; lia|done]. }
  cbn [clean_text]. rewrite traced_bind_pure_Ok.
  destruct (clean_text ref) as [ref_clean|e].
  - rewrite traced_bind_pure_Ok.
    destruct (rouge_get_scores ext _ ref_clean) as [[[f1 f2] fl]|e].
    + rewrite traced_bind_invoke_Ok. cbn.
      eexists _, _. split; [reflexivity|]. split; [cbn; lia|done].
    + rewrite traced_bind_invoke_Raise. cbn.
      eexists _, _. split; [reflexivity|]. split; [cbn; lia|done].
  - rewrite traced_bind_pure_Raise. cbn.
    eexists _, _. split; [reflexivity|]. split; [cbn; lia|done].
Qed.

(** ** What the metrics return *)

(** X13: over the repository's DSPy programs, the relevancy and the
    correctness metric return exactly a score and an explanation, and the
    score is a float between 0 and 1 whatever the predictor answers; they
    raise only the [ValueError] of the input validation. *)
Theorem dspy_metric_scores_bounded float_of_str pred ext q r ref :
  let progs := dspy_programs float_of_str pred ext in
  bounded_score_result (evaluate (RelevancyMetric progs) q r ref).2 ∧
  bounded_score_result (evaluate (CorrectnessMetric progs) q r ref).2.
Proof.
  intros progs. unfold bounded_score_result.
  assert (unit_interval 0) as H0 by (split; reflexivity).
  split.
  - destruct (validate_inputs q r PyNone) as [[]|e] eqn:Hv.
    2:{ rewrite (relevancy_invalid _ _ _ _ _ Hv). cbn.
        by eapply validate_inputs_raises. }
    destruct (validate_inputs_response _ _ _ Hv) as [s ->].
    rewrite (relevancy_valid _ _ _ _ Hv).
    destruct (String.eqb (strip s) ""); cbn [snd]; [by eexists _, _|].
    cbn [relevancy_program progs dspy_programs].
    unfold RelevancyProgram_forward.
    destruct (relevancy_predictor pred q (PyStr s)) as [result|e]; res_simpl.
    + eexists _, _. split; [reflexivity|]. apply bounded_score_range.
    + by eexists _, _.
  - destruct (validate_inputs q r ref) as [[]|e] eqn:Hv.
    2:{ rewrite (correctness_invalid _ _ _ _ _ Hv). cbn.
        by eapply validate_inputs_raises. }
    destruct (validate_inputs_response _ _ _ Hv) as [s ->].
    rewrite (correctness_valid _ _ _ _ Hv).
    destruct (negb (truthy ref)); cbn [snd]; [by eexists _, _|].
    destruct (String.eqb (strip s) ""); cbn [snd]; [by eexists _, _|].
    cbn [correctness_program progs dspy_programs].
    unfold CorrectnessProgram_forward.
    destruct (correctness_predictor pred q (PyStr s) ref) as [result|e];
      res_simpl.
    + eexists _, _. split; [reflexivity|]. apply bounded_score_range.
    + by eexists _, _.
Qed.

(** X14: over the repository's toxicity program, the toxicity metric
    returns exactly the four entries [is_toxic], [explanation],
    [toxicity_type] and [score]; the flag is a boolean, the score is 0.0
    when it is set and 1.0 when it is not, and a response that is not
    flagged has the type "none", or "error" when the predictor raised. *)
Theorem toxicity_result_consistent float_of_str pred ext q r ref :
  let progs := dspy_programs float_of_str pred ext in
  match (evaluate (ToxicityMetric progs) q r ref).2 with
  | Ok d =>
      ∃ (b : bool) e t,
        d = [("is_toxic", PyBool b); ("explanation", e);
             ("toxicity_type", t);
             ("score", PyFloat (if b then 0 else 1))] ∧
        (b = false → t = PyStr "none" ∨ t = PyStr "error")
  | Raise e => ∃ msg, e = ValueError msg
  end.
Proof.
  intros progs.
  destruct (validate_inputs q r PyNone) as [[]|e] eqn:Hv.
  2:{ rewrite (toxicity_invalid _ _ _ _ _ Hv). cbn.
      by eapply validate_inputs_raises. }
  destruct (validate_inputs_response _ _ _ Hv) as [s ->].
  rewrite (toxicity_valid _ _ _ _ Hv).
  destruct (String.eqb (strip s) ""); cbn [snd].
  { exists false. eexists _, _. split; [reflexivity|]. by left. }
  cbn [toxicity_program progs dspy_programs].
  unfold ToxicityProgram_forward.
  destruct (toxicity_predictor pred (PyStr s)) as [result|e]; res_simpl.
  2:{ exists false. eexists _, _. split; [reflexivity|]. by right. }
  match goal with
  | |- context [PyBool ?b] => generalize b
  end.
  intros b. cbn. exists b. eexists _, _. split; [reflexivity|].
  intros ->. by left.
Qed.

Lemma strip_empty : strip "" = "".
Proof. reflexivity. Qed.

Lemma relevancy_builtin ext : RelevancyMetric ext ∈ builtin_metrics ext.
Proof. apply list_elem_of_here. Qed.

Lemma correctness_builtin ext : CorrectnessMetric ext ∈ builtin_metrics ext.
Proof. apply list_elem_of_further, list_elem_of_here. Qed.

Lemma rouge_builtin ext : RougeMetric ext ∈ builtin_metrics ext.
Proof. do 2 apply list_elem_of_further. apply list_elem_of_here. Qed.

Lemma toxicity_builtin ext : ToxicityMetric ext ∈ builtin_metrics ext.
Proof. do 3 apply list_elem_of_further. apply list_elem_of_here. Qed.

Lemma builtin_metrics_cases ext m (P : Metric → Prop) :
  m ∈ builtin_metrics ext →
  P (RelevancyMetric ext) → P (CorrectnessMetric ext) →
  P (RougeMetric ext) → P (ToxicityMetric ext) → P m.
Proof.
  unfold builtin_metrics. rewrite !elem_of_cons, elem_of_nil.
  intros [->|[->|[->|[->|[]]]]]; auto.
Qed.

Lemma rouge_blank ext q s ref :
  String.eqb (strip s) "" = true →
  evaluate (RougeMetric ext) q (PyStr s) ref
  = evaluate (RougeMetric ext) q (PyStr "") ref ∧
  (evaluate (RougeMetric ext) q (PyStr s) ref).1 = [].
Proof.
  intros Hs. cbn [evaluate RougeMetric]. unfold RougeMetric_evaluate.
  rewrite (validate_inputs_any_response q s "" ref).
  destruct (validate_inputs q (PyStr "") ref) as [[]|e].
  2:{ by rewrite !traced_bind_pure_Raise. }
  rewrite !traced_bind_pure_Ok.
  destruct (negb (truthy ref)); [done|]. cbn [py_strip].
  rewrite !traced_bind_pure_Ok. cbn [truthy]. rewrite strip_empty, Hs. done.
Qed.

(** X15: a response made of whitespace only is treated by every built-in
    metric exactly as the empty response, and no collaborator is called
    for it. *)
Theorem blank_response_is_empty ext m q s ref :
  strip s = "" →
  m ∈ builtin_metrics ext →
  evaluate m q (PyStr s) ref = evaluate m q (PyStr "") ref ∧
  (evaluate m q (PyStr s) ref).1 = [].
Proof.
  intros Hs Hm.
  assert (String.eqb (strip s) "" = true) as Hb by (by rewrite Hs).
  apply (builtin_metrics_cases ext m); [done|..].
  - destruct (validate_inputs q (PyStr s) PyNone) as [[]|e] eqn:Hv.
    + rewrite (relevancy_valid _ _ s _ Hv), (relevancy_valid _ _ "" _ Hv).
      by rewrite strip_empty, Hb.
    + by rewrite (relevancy_invalid _ _ (PyStr s) _ _ Hv),
        (relevancy_invalid _ _ (PyStr "") _ _ Hv).
  - destruct (validate_inputs q (PyStr s) ref) as [[]|e] eqn:Hv.
    + rewrite (correctness_valid _ _ s _ Hv), (correctness_valid _ _ "" _ Hv).
      rewrite strip_empty, Hb. by destruct (negb (truthy ref)).
    + by rewrite (correctness_invalid _ _ (PyStr s) _ _ Hv),
        (correctness_invalid _ _ (PyStr "") _ _ Hv).
  - by apply rouge_blank.
  - destruct (validate_inputs q (PyStr s) PyNone) as [[]|e] eqn:Hv.
    + rewrite (toxicity_valid _ _ s _ Hv), (toxicity_valid _ _ "" _ Hv).
      by rewrite strip_empty, Hb.
    + by rewrite (toxicity_invalid _ _ (PyStr s) _ _ Hv),
        (toxicity_invalid _ _ (PyStr "") _ _ Hv).
Qed.

Lemma blank_response_is_empty_witness :
  evaluate (RougeMetric unavailable) (PyStr "q") (PyStr "  ") (PyStr "ref")
  = evaluate (RougeMetric unavailable) (PyStr "q") (PyStr "") (PyStr "ref") ∧
  (evaluate (RougeMetric unavailable) (PyStr "q") (PyStr "  ") (PyStr "ref")).1
  = [].
Proof.
  apply (blank_response_is_empty unavailable).
  - reflexivity.
  - apply rouge_builtin.
Defined.

Lemma builtin_metric_trace ext m q r ref :
  m ∈ builtin_metrics ext →
  match evaluate m q r ref with
  | (t, Ok _) =>
      validate_inputs q r PyNone = Ok tt ∧ (length t ≤ 1)%nat ∧
      (t ≠ [] → ∃ s, r = PyStr s ∧ strip s ≠ "")
  | (t, Raise e) =>
      t = [] ∧ (∃ msg, e = ValueError msg) ∧
      ∃ e', validate_inputs q r ref = Raise e'
  end.
Proof.
  intros Hm. apply (builtin_metrics_cases ext m); [done|..].
  - destruct (validate_inputs q r PyNone) as [[]|e] eqn:Hv.
    + destruct (validate_inputs_response _ _ _ Hv) as [s ->].
      rewrite (relevancy_valid _ _ _ _ Hv).
      destruct (String.eqb (strip s) "") eqn:Hs.
      * split; [done|]. split; [cbn; lia|done].
      * split; [done|]. split; [cbn; lia|]. intros _. exists s.
        split; [done|]. intros Heq. by rewrite Heq in Hs.
    + rewrite (relevancy_invalid _ _ _ _ _ Hv).
      split; [done|]. split; [by eapply validate_inputs_raises|].
      destruct (validate_inputs q r ref) as [[]|e'] eqn:Hv'; [|by eexists].
      apply validate_inputs_no_reference in Hv'. congruence.
  - destruct (validate_inputs q r ref) as [[]|e] eqn:Hv.
    + destruct (validate_inputs_response _ _ _ Hv) as [s ->].
      rewrite (correctness_valid _ _ _ _ Hv).
      pose proof (validate_inputs_no_reference _ _ _ Hv) as Hv0.
      destruct (negb (truthy ref)).
      { split; [done|]. split; [cbn; lia|done]. }
      destruct (String.eqb (strip s) "") eqn:Hs.
      * split; [done|]. split; [cbn; lia|done].
      * split; [done|]. split; [cbn; lia|]. intros _. exists s.
        split; [done|]. intros Heq. by rewrite Heq in Hs.
    + rewrite (correctness_invalid _ _ _ _ _ Hv).
      split; [done|]. split; [by eapply validate_inputs_raises|by eexists].
  - destruct (validate_inputs q r ref) as [[]|e] eqn:Hv.
    + destruct (validate_inputs_response _ _ _ Hv) as [s ->].
      destruct (rouge_valid ext _ _ _ Hv) as (t & d & -> & Hlen & Hnil).
      pose proof (validate_inputs_no_reference _ _ _ Hv) as Hv0.
      split; [done|]. split; [done|]. intros Ht. exists s. split; [done|].
      intros Heq. apply Ht, Hnil. rewrite Heq. cbn.
      by rewrite orb_true_r.
    + rewrite (rouge_invalid _ _ _ _ _ Hv).
      split; [done|]. split; [by eapply validate_inputs_raises|by eexists].
  - destruct (validate_inputs q r PyNone) as [[]|e] eqn:Hv.
    + destruct (validate_inputs_response _ _ _ Hv) as [s ->].
      rewrite (toxicity_valid _ _ _ _ Hv).
      destruct (String.eqb (strip s) "") eqn:Hs.
      * split; [done|]. split; [cbn; lia|done].
      * split; [done|]. split; [cbn; lia|]. intros _. exists s.
        split; [done|]. intros Heq. by rewrite Heq in Hs.
    + rewrite (toxicity_invalid _ _ _ _ _ Hv).
      split; [done|]. split; [by eapply validate_inputs_raises|].
      destruct (validate_inputs q r ref) as [[]|e'] eqn:Hv'; [|by eexists].
      apply validate_inputs_no_reference in Hv'. congruence.
Qed.

(** X16: whatever the collaborators do, a built-in metric returns a result
    on every input that passes the validation; when it raises, the
    exception is the [ValueError] of the validation and no collaborator has
    been called. *)
Theorem builtin_metric_never_raises_on_valid_input ext m q r ref :
  m ∈ builtin_metrics ext →
  (validate_inputs q r ref = Ok tt →
   ∃ t d, evaluate m q r ref = (t, Ok d)) ∧
  (∀ t e, evaluate m q r ref = (t, Raise e) →
          t = [] ∧ ∃ msg, e = ValueError msg).
Proof.
  intros Hm. pose proof (builtin_metric_trace ext m q r ref Hm) as Htrace.
  destruct (evaluate m q r ref) as [t [d|e]].
  - split; [by eexists _, _|]. by intros t' e' [= _].
  - destruct Htrace as (-> & Herr & e' & He'). split.
    + intros Hv. congruence.
    + intros t' e'' [= <- <-]. done.
Qed.

Lemma builtin_metric_never_raises_on_valid_input_witness :
  (validate_inputs (PyStr "q") (PyStr "r") PyNone = Ok tt →
   ∃ t d, evaluate (CorrectnessMetric unavailable)
            (PyStr "q") (PyStr "r") PyNone = (t, Ok d)) ∧
  (∀ t e, evaluate (CorrectnessMetric unavailable)
            (PyStr "q") (PyStr "r") PyNone = (t, Raise e) →
          t = [] ∧ ∃ msg, e = ValueError msg).
Proof.
  apply (builtin_metric_never_raises_on_valid_input unavailable).
  apply correctness_builtin.
Defined.

(** X17: evaluating one record with built-in metrics costs at most one
    collaborator call per metric, and none at all when the response is not
    a string or is blank. *)
Theorem evaluate_single_calls ext ms q r ref :
  Forall (λ m, m ∈ builtin_metrics ext) ms →
  (length (evaluate_single ms q r ref).1 ≤ length ms)%nat ∧
  ((∀ s, r = PyStr s → strip s = "") → (evaluate_single ms q r ref).1 = []).
Proof.
  intros Hms. rewrite evaluate_single_outcome. cbn [fst]. unfold calls_of.
  induction Hms as [|m ms Hm _ [IHlen IHnil]]; [done|].
  cbn [flat_map]. rewrite length_app. cbn [length].
  pose proof (builtin_metric_trace ext m q r ref Hm) as Htrace.
  destruct (evaluate m q r ref) as [t [d|e]]; cbn [fst].
  - destruct Htrace as (_ & Hlen & Hcall). split; [lia|].
    intros Hblank. rewrite (IHnil Hblank).
    destruct t as [|c t]; [done|].
    destruct Hcall as (s & -> & Hs); [done|]. by destruct Hs; apply Hblank.
  - destruct Htrace as (-> & _). cbn. split; [lia|]. exact IHnil.
Qed.

Lemma evaluate_single_calls_witness :
  (length (evaluate_single (builtin_metrics unavailable)
             (PyStr "q") (PyStr "r") (PyStr "ref")).1 ≤ 4)%nat ∧
  ((∀ s, PyStr "r" = PyStr s → strip s = "") →
   (evaluate_single (builtin_metrics unavailable)
      (PyStr "q") (PyStr "r") (PyStr "ref")).1 = []).
Proof.
  apply (evaluate_single_calls unavailable (builtin_metrics unavailable)).
  apply Forall_forall. auto.
Defined.

(** ** Dictionaries: lookup after update *)

Lemma dict_get_set_eq d k v : dict_get (dict_set d k v) k = Some v.
Proof.
  induction d as [|[k' v'] d IH]; cbn.
  - by rewrite String.eqb_refl.
  - destruct (String.eqb k' k) eqn:Hk; cbn; by rewrite Hk.
Qed.

Lemma dict_get_set_ne d k v k' :
  k ≠ k' → dict_get (dict_set d k v) k' = dict_get d k'.
Proof.
  intros Hne. induction d as [|[k0 v0] d IH]; cbn.
  - by apply String.eqb_neq in Hne as ->.
  - destruct (String.eqb k0 k) eqn:Hk; cbn; [|by rewrite IH].
    apply String.eqb_eq in Hk as ->.
    by apply String.eqb_neq in Hne as ->.
Qed.

Lemma dict_get_None d k : dict_get d k = None ↔ k ∉ dict_keys d.
Proof.
  unfold dict_keys. induction d as [|[k' v'] d IH]; cbn.
  - split; [intros _; apply not_elem_of_nil|done].
  - rewrite not_elem_of_cons. destruct (String.eqb k' k) eqn:Hk.
    + apply String.eqb_eq in Hk as ->. split; [done|]. by intros [].
    + apply String.eqb_neq in Hk. rewrite IH. split; [|tauto].
      intros ?. split; [congruence|done].
Qed.

Lemma append_inj_l (a s s' : string) : a +:+ s = a +:+ s' → s = s'.
Proof.
  induction a as [|c a IH]; [done|]. rewrite !append_cons.
  intros [= H]. by apply IH.
Qed.

Lemma prefixed_key_inj n n' k k' :
  contains_char "_" n = false → contains_char "_" n' = false →
  n +:+ "_" +:+ k = n' +:+ "_" +:+ k' → n = n' ∧ k = k'.
Proof.
  revert n'. induction n as [|c n IH]; intros [|c' n'] Hn Hn';
    repeat (rewrite append_nil_l || rewrite append_cons).
  - by intros [= ->].
  - intros [= <- _]. by cbn in Hn'.
  - intros [= -> _]. by cbn in Hn.
  - intros [= -> Heq].
    cbn in Hn, Hn'. apply orb_false_elim in Hn as [_ Hn].
    apply orb_false_elim in Hn' as [_ Hn'].
    destruct (IH n' Hn Hn' Heq) as [-> ->]. done.
Qed.

Lemma merge_result_other n results d key :
  (∀ k, n +:+ "_" +:+ k ≠ key) →
  dict_get (merge_result n results d) key = dict_get results key.
Proof.
  intros Hkey. unfold merge_result. revert results.
  induction d as [|[k v] d IH]; intros results; [done|].
  cbn [fold_left fst snd]. rewrite IH. by apply dict_get_set_ne.
Qed.

Lemma merge_result_own_key n results d k :
  NoDup (dict_keys d) →
  dict_get (merge_result n results d) (n +:+ "_" +:+ k)
  = match dict_get d k with
    | Some v => Some v
    | None => dict_get results (n +:+ "_" +:+ k)
    end.
Proof.
  unfold merge_result, dict_keys. revert results.
  induction d as [|[k' v'] d IH]; intros results Hd; [done|].
  cbn [fold_left fst snd dict_get]. apply NoDup_cons in Hd as [Hk' Hd].
  cbn [fst] in Hk'. rewrite IH by done. destruct (String.eqb k' k) eqn:Hk.
  - apply String.eqb_eq in Hk as ->.
    apply dict_get_None in Hk'. rewrite Hk'. apply dict_get_set_eq.
  - destruct (dict_get d k); [done|]. apply dict_get_set_ne.
    intros Heq%append_inj_l%append_inj_l. apply String.eqb_neq in Hk. done.
Qed.

(** X18: merging a metric's result into the results of the record: the
    entry under [<name>_<key>] is the metric's value for the key when it has
    one and is left as it was otherwise, and the entries under the keys
    that are not of this form are left as they were. *)
Theorem merge_result_lookup n results d :
  NoDup (dict_keys d) →
  (∀ k, dict_get (merge_result n results d) (n +:+ "_" +:+ k)
        = match dict_get d k with
          | Some v => Some v
          | None => dict_get results (n +:+ "_" +:+ k)
          end) ∧
  (∀ key, (∀ k, n +:+ "_" +:+ k ≠ key) →
          dict_get (merge_result n results d) key = dict_get results key).
Proof.
  intros Hd. split.
  - intros k. by apply merge_result_own_key.
  - intros key Hkey. by apply merge_result_other.
Qed.

Lemma merge_result_lookup_witness :
  let d := [("score", PyFloat 0.5); ("explanation", PyStr "e")] in
  let results := [("rouge_score", PyFloat 0); ("question", PyStr "q")] in
  dict_get (merge_result "rouge" results d) "rouge_score"
  = Some (PyFloat 0.5) ∧
  (∀ k, dict_get (merge_result "rouge" results d) ("rouge" +:+ "_" +:+ k)
        = match dict_get d k with
          | Some v => Some v
          | None => dict_get results ("rouge" +:+ "_" +:+ k)
          end) ∧
  (∀ key, (∀ k, "rouge" +:+ "_" +:+ k ≠ key) →
          dict_get (merge_result "rouge" results d) key
          = dict_get results key).
Proof.
  intros d results. split; [reflexivity|].
  apply (merge_result_lookup "rouge" results d).
  apply (bool_decide_unpack _). vm_compute. exact I.
Defined.

(** ** Where the values of a metric end up *)

Lemma merged_results_cons q r ref results m ms :
  merged_results q r ref results (m :: ms)
  = merged_results q r ref
      (match (evaluate m q r ref).2 with
       | Ok d => merge_result (name m) results d
       | Raise _ => results
       end) ms.
Proof. reflexivity. Qed.

Lemma merged_results_others q r ref n k ms results :
  contains_char "_" n = false →
  Forall (λ m', name m' ≠ n ∧ contains_char "_" (name m') = false) ms →
  dict_get (merged_results q r ref results ms) (n +:+ "_" +:+ k)
  = dict_get results (n +:+ "_" +:+ k).
Proof.
  intros Hn Hms. revert results.
  induction Hms as [|m' ms [Hne Hm'] _ IH]; intros results; [done|].
  rewrite merged_results_cons, IH.
  destruct (evaluate m' q r ref).2 as [d'|]; [|done].
  apply merge_result_other. intros k' Heq.
  by destruct (prefixed_key_inj _ _ _ _ Hm' Hn Heq).
Qed.

Lemma merged_results_lookup q r ref ms m d k results :
  NoDup (map name ms) →
  Forall (λ m, contains_char "_" (name m) = false) ms →
  m ∈ ms → (evaluate m q r ref).2 = Ok d → NoDup (dict_keys d) →
  dict_get (merged_results q r ref results ms) (name m +:+ "_" +:+ k)
  = match dict_get d k with
    | Some v => Some v
    | None => dict_get results (name m +:+ "_" +:+ k)
    end.
Proof.
  intros Hnames Hus Hm Hd Hkeys. revert results.
  induction ms as [|m0 ms IH]; intros results; [by apply elem_of_nil in Hm|].
  cbn [map] in Hnames. apply NoDup_cons in Hnames as [Hm0 Hnames].
  apply Forall_cons in Hus as [Hu0 Hus].
  rewrite merged_results_cons.
  apply elem_of_cons in Hm as [->|Hm].
  - rewrite Hd, merged_results_others; [by apply merge_result_own_key|done|].
    apply Forall_forall. intros m' Hm'. split.
    + intros Heq. apply Hm0. rewrite <- Heq.
      apply list_elem_of_fmap. by exists m'.
    + rewrite Forall_forall in Hus. by apply Hus.
  - rewrite IH by done. destruct (dict_get d k); [done|].
    destruct (evaluate m0 q r ref).2 as [d0|]; [|done].
    apply merge_result_other. intros k' Heq.
    assert (contains_char "_" (name m) = false) as Hu.
    { rewrite Forall_forall in Hus. by apply Hus. }
    destruct (prefixed_key_inj _ _ _ _ Hu0 Hu Heq) as [Heq' _].
    apply Hm0. rewrite Heq'. apply list_elem_of_fmap. by exists m.
Qed.

(** X19: when the metrics have distinct names without an underscore, every
    metric that returned a result has each of its values in the results of
    the record under [<name>_<key>], and nothing else under a key of that
    form: no metric overwrites what another one wrote. *)
Theorem evaluate_single_lookup ms q r ref m d :
  NoDup (map name ms) →
  Forall (λ m, contains_char "_" (name m) = false) ms →
  m ∈ ms → (evaluate m q r ref).2 = Ok d → NoDup (dict_keys d) →
  ∃ row, (evaluate_single ms q r ref).2 = Ok row ∧
         ∀ k, dict_get row (name m +:+ "_" +:+ k) = dict_get d k.
Proof.
  intros Hnames Hus Hm Hd Hkeys. rewrite evaluate_single_outcome. cbn [snd].
  eexists. split; [reflexivity|]. intros k.
  assert (dict_get (merged_results q r ref [] ms) (name m +:+ "_" +:+ k)
          = dict_get d k) as Hmerged.
  { rewrite (merged_results_lookup q r ref ms m d k) by done.
    by destruct (dict_get d k). }
  destruct (error_strings q r ref ms); [done|].
  rewrite dict_get_set_ne; [done|]. intros Heq.
  pose proof (prefixed_key_underscore (name m) k) as Hu.
  by rewrite <- Heq in Hu.
Qed.

Lemma evaluate_single_lookup_witness :
  ∃ row, (evaluate_single (builtin_metrics unavailable)
            (PyStr "q") (PyStr "r") PyNone).2 = Ok row ∧
         ∀ k, dict_get row (name (ToxicityMetric unavailable) +:+ "_" +:+ k)
              = dict_get [("is_toxic", PyBool false);
                          ("explanation",
                           PyStr "Error evaluating toxicity: service unavailable");
                          ("toxicity_type", PyStr "error");
                          ("score", PyFloat 1)] k.
Proof.
  apply (evaluate_single_lookup (builtin_metrics unavailable)).
  - apply (bool_decide_unpack _). vm_compute. exact I.
  - repeat constructor.
  - apply toxicity_builtin.
  - reflexivity.
  - apply (bool_decide_unpack _). vm_compute. exact I.
Defined.

(** ** [evaluate] *)

Lemma traced_mapM_cons {A B} (f : A → traced B) x l :
  mapM f (x :: l) = (y ← f x; k ← mapM f l; mret (y :: k)).
Proof. reflexivity. Qed.

Lemma traced_mapM_total {A B} (f : A → traced B) (t : A → list call)
    (g : A → B) l :
  (∀ x, f x = (t x, Ok (g x))) →
  mapM f l = (flat_map t l, Ok (map g l)).
Proof.
  intros Hf. induction l as [|x l IH]; [reflexivity|].
  rewrite traced_mapM_cons, Hf, IH. cbn. by rewrite app_nil_r.
Qed.

Lemma traced_bind_Ok {A B} t (a : A) (f : A → traced B) :
  ((t, Ok a) ≫= f) = ((t ++ (f a).1)%list, (f a).2).
Proof. cbn. by destruct (f a). Qed.

Lemma evaluate_row_outcome metrics cols row :
  evaluate_row metrics cols row
  = (calls_of (cell row "question") (cell row "response")
       (row_get cols row "reference") metrics,
     Ok (add_original_data cols row (metric_results metrics cols row))).
Proof.
  unfold evaluate_row, metric_results. cbv zeta.
  rewrite evaluate_single_outcome, traced_bind_Ok.
  unfold mret, traced_ret. cbn [fst snd]. by rewrite app_nil_r.
Qed.

Lemma metric_results_keys metrics cols row k :
  k ∈ dict_keys (metric_results metrics cols row) →
  contains_char "_" k = true ∨ k = "errors".
Proof.
  unfold metric_results. cbv zeta.
  pose proof (merged_results_keys (cell row "question") (cell row "response")
                (row_get cols row "reference") [] metrics
                (Forall_nil_2 _)) as Hkeys.
  rewrite Forall_forall in Hkeys.
  destruct (error_strings _ _ _ _).
  - intros Hk. left. by apply Hkeys.
  - intros [Hk| ->]%elem_of_dict_set_keys; [|by right].
    left. by apply Hkeys.
Qed.

Lemma metric_results_no_plain_key metrics cols row k :
  contains_char "_" k = false → k ≠ "errors" →
  dict_get (metric_results metrics cols row) k = None.
Proof.
  intros Hu Hne. apply dict_get_None.
  intros [Hk| ->]%metric_results_keys; congruence.
Qed.

(** X20: the record that [evaluate] builds for a row carries the row's
    question and response, its reference unless that is [None], and its id
    when the table has an [id] column; every other entry is the metric
    results' own, and the row is evaluated whatever the metrics raise. *)
Theorem evaluate_row_record metrics cols row :
  let question := cell row "question" in
  let response := cell row "response" in
  let reference := row_get cols row "reference" in
  ∃ calls record,
    evaluate_row metrics cols row = (calls, Ok record) ∧
    dict_get record "question" = Some question ∧
    dict_get record "response" = Some response ∧
    dict_get record "reference"
    = match reference with PyNone => None | _ => Some reference end ∧
    dict_get record "id"
    = (if bool_decide ("id" ∈ cols) then Some (cell row "id") else None) ∧
    ∀ k, k ∉ ["question"; "response"; "reference"; "id"] →
         dict_get record k = dict_get (metric_results metrics cols row) k.
Proof.
  cbv zeta. rewrite evaluate_row_outcome. eexists _, _.
  split; [reflexivity|]. unfold add_original_data. cbv zeta.
  set (results := metric_results metrics cols row).
  set (reference := row_get cols row "reference").
  assert (∀ k, contains_char "_" k = false → k ≠ "errors" →
               dict_get results k = None) as Hplain.
  { intros k. apply metric_results_no_plain_key. }
  set (d2 := dict_set (dict_set results "question" (cell row "question"))
               "response" (cell row "response")).
  set (d3 := match reference with
             | PyNone => d2
             | _ => dict_set d2 "reference" reference
             end).
  assert (∀ k, k ≠ "reference" → dict_get d3 k = dict_get d2 k) as Hd3.
  { intros k Hk. unfold d3.
    destruct reference; try done; by apply dict_get_set_ne. }
  assert (dict_get d3 "reference"
          = match reference with PyNone => None | _ => Some reference end)
    as Href.
  { unfold d3. destruct reference; try apply dict_get_set_eq.
    unfold d2. rewrite !dict_get_set_ne by done. by apply Hplain. }
  assert (∀ k v, k ≠ "id" →
            dict_get (if bool_decide ("id" ∈ cols)
                      then dict_set d3 "id" v else d3) k = dict_get d3 k)
    as Hid.
  { intros k v Hk. case_bool_decide; [|done]. by apply dict_get_set_ne. }
  split; [|split; [|split; [|split]]].
  - rewrite Hid, Hd3 by done. unfold d2.
    rewrite dict_get_set_ne by done. apply dict_get_set_eq.
  - rewrite Hid, Hd3 by done. apply dict_get_set_eq.
  - by rewrite Hid.
  - case_bool_decide; [apply dict_get_set_eq|].
    rewrite Hd3 by done. unfold d2. rewrite !dict_get_set_ne by done.
    by apply Hplain.
  - intros k Hk. rewrite !not_elem_of_cons in Hk.
    destruct Hk as (Hq & Hr & Href' & Hid' & _).
    rewrite Hid, Hd3 by done. unfold d2.
    by rewrite !dict_get_set_ne by done.
Qed.

Lemma require_columns_present cols :
  "question" ∈ cols → "response" ∈ cols → require_columns cols = Ok tt.
Proof.
  intros Hq Hr. unfold require_columns. res_simpl.
  rewrite (bool_decide_eq_true_2 _ Hq). res_simpl.
  by rewrite (bool_decide_eq_true_2 _ Hr).
Qed.

(** X21: [evaluate] refuses a table that lacks the [question] or the
    [response] column with a [ValueError] that names the first one missing,
    before any metric is evaluated. *)
Theorem evaluate_requires_columns frame metrics scorer data :
  let df := match data with inl df => df | inr l => frame l end in
  ¬ ("question" ∈ columns df ∧ "response" ∈ columns df) →
  EvaluationPipeline_evaluate frame metrics scorer data
  = ([], Raise (ValueError
                  ("Required column '"
                   +:+ (if bool_decide ("question" ∈ columns df)
                        then "response" else "question")
                   +:+ "' not found in data"))).
Proof.
  intros df Hmissing. unfold EvaluationPipeline_evaluate. fold df.
  cbv zeta. unfold require_columns. res_simpl.
  case_bool_decide as Hq; res_simpl.
  - case_bool_decide as Hr; [tauto|]. res_simpl.
    by rewrite traced_bind_pure_Raise.
  - by rewrite traced_bind_pure_Raise.
Qed.

Lemma evaluate_requires_columns_witness :
  EvaluationPipeline_evaluate frame_of_records (builtin_metrics unavailable)
    default_scorer (inr [])
  = ([], Raise (ValueError "Required column 'question' not found in data")).
Proof.
  apply (evaluate_requires_columns frame_of_records
           (builtin_metrics unavailable) default_scorer (inr [])).
  vm_compute. intros [Hq _]. by apply elem_of_nil in Hq.
Defined.

(** X22: on a table with both required columns [evaluate] evaluates every
    metric on every row, in the order of the rows, whatever the metrics
    raise; its result is the scoring of the table of the records, and the
    only exception it can raise is the [TypeError] of the scoring. *)
Theorem evaluate_runs_every_row frame metrics scorer data :
  let df := match data with inl df => df | inr l => frame l end in
  "question" ∈ columns df → "response" ∈ columns df →
  EvaluationPipeline_evaluate frame metrics scorer data
  = (flat_map (λ row, calls_of (cell row "question") (cell row "response")
                        (row_get (columns df) row "reference") metrics)
       (rows df),
     score_results scorer
       (frame (map (λ row, add_original_data (columns df) row
                             (metric_results metrics (columns df) row))
                 (rows df)))) ∧
  ∀ e, (EvaluationPipeline_evaluate frame metrics scorer data).2 = Raise e →
       ∃ msg, e = TypeError msg.
Proof.
  intros df Hq Hr.
  assert (EvaluationPipeline_evaluate frame metrics scorer data
          = (flat_map (λ row, calls_of (cell row "question")
                                (cell row "response")
                                (row_get (columns df) row "reference") metrics)
               (rows df),
             score_results scorer
               (frame (map (λ row, add_original_data (columns df) row
                                     (metric_results metrics (columns df) row))
                         (rows df))))) as Heq.
  { unfold EvaluationPipeline_evaluate. fold df. cbv zeta.
    rewrite (require_columns_present _ Hq Hr), traced_bind_pure_Ok.
    rewrite (traced_mapM_total _ _ _ _ (λ row, evaluate_row_outcome metrics
                                                  (columns df) row)).
    unfold pure_step. cbn. by rewrite app_nil_r. }
  split; [exact Heq|]. rewrite Heq. cbn [snd]. apply score_results_raises.
Qed.

Lemma evaluate_runs_every_row_witness :
  let data := [[("question", PyStr "q"); ("response", PyStr "r")]] in
  (EvaluationPipeline_evaluate frame_of_records (builtin_metrics unavailable)
     default_scorer (inr data)).1
  = [Call "RelevancyProgram" [PyStr "q"; PyStr "r"];
     Call "ToxicityProgram" [PyStr "r"]] ∧
  ∀ e, (EvaluationPipeline_evaluate frame_of_records
          (builtin_metrics unavailable) default_scorer (inr data)).2 = Raise e →
       ∃ msg, e = TypeError msg.
Proof.
  intros data.
  destruct (evaluate_runs_every_row frame_of_records
              (builtin_metrics unavailable) default_scorer (inr data))
    as [Heq Hraise].
  - vm_compute. repeat constructor.
  - vm_compute. repeat constructor.
  - split; [|exact Hraise]. rewrite Heq. reflexivity.
Defined.

(** ** The pipeline that [main] sets up *)

(** X23: whatever the [--metrics] argument says, the metrics of the
    pipeline are some of the four built-in ones in the fixed order
    relevancy, correctness, rouge, toxicity; their names are distinct and
    have no underscore, so that no metric overwrites another one's values
    in a record. *)
Theorem select_metrics_sublist ext metrics_arg :
  sublist (select_metrics ext metrics_arg) (builtin_metrics ext) ∧
  NoDup (map name (select_metrics ext metrics_arg)) ∧
  Forall (λ m, contains_char "_" (name m) = false)
         (select_metrics ext metrics_arg).
Proof.
  unfold select_metrics, builtin_metrics.
  destruct (String.eqb metrics_arg "all").
  { split; [done|]. split; [|by repeat constructor].
    apply (bool_decide_unpack _). by vm_compute. }
  cbv zeta.
  repeat match goal with
         | |- context [bool_decide ?P] => destruct (bool_decide P)
         end;
    cbn [app map]; (split; [repeat constructor|]);
    (split; [apply (bool_decide_unpack _); by vm_compute
            |by repeat constructor]).
Qed.

Lemma float_le_not_lt (x y : float) :
  (x <=? y)%float = true → (y <? x)%float = false.
Proof.
  intros Hle. destruct (float_le_not_nan _ _ Hle) as [Hx Hy].
  by rewrite (float_not_lt_ge y x Hy Hx), Hle.
Qed.

(** X24: under the scorer of [main] the looser of the relevancy and the
    correctness threshold applies to both metrics: a score of at least 0.4
    that reaches either threshold is green for either metric. *)
Theorem main_scorer_looser_threshold rel corr rouge (s : float) metric_name :
  metric_name = "relevancy" ∨ metric_name = "correctness" →
  (0.4 <=? s)%float = true →
  (rel <=? s)%float = true ∨ (corr <=? s)%float = true →
  score_to_status (main_scorer rel corr rouge) s metric_name = "green".
Proof.
  intros Hname Hlow Hhigh.
  assert (score_to_status (main_scorer rel corr rouge) s metric_name
          = if (s <? 0.4)%float then "red"
            else if (s <? py_min rel corr)%float then "yellow" else "green")
    as ->.
  { by destruct Hname as [-> | ->]. }
  rewrite (float_le_not_lt _ _ Hlow).
  assert ((s <? py_min rel corr)%float = false) as ->; [|done].
  unfold py_min. destruct (corr <? rel)%float eqn:Hcr.
  - destruct Hhigh as [Hrel|Hcorr]; [|by apply float_le_not_lt].
    apply float_le_not_lt. apply float_lt_le in Hcr.
    by apply (float_le_trans corr rel s).
  - destruct Hhigh as [Hrel|Hcorr]; [by apply float_le_not_lt|].
    destruct (is_nan rel) eqn:Hn.
    + destruct (s <? rel)%float eqn:Hlt; [|done].
      apply float_lt_not_nan in Hlt as [_ Hlt]. congruence.
    + destruct (float_le_not_nan _ _ Hcorr) as [Hc Hs].
      rewrite (float_not_lt_ge corr rel Hc Hn) in Hcr.
      apply negb_false_iff in Hcr. apply float_le_not_lt.
      by apply (float_le_trans rel corr s).
Qed.

Lemma main_scorer_looser_threshold_witness :
  (0.75 <? 0.9)%float = true ∧
  score_to_status (main_scorer 0.7 0.9 0.5) 0.75 "correctness" = "green".
Proof.
  split; [reflexivity|].
  apply (main_scorer_looser_threshold 0.7 0.9 0.5 0.75 "correctness").
  - by right.
  - reflexivity.
  - by left.
Defined.

(** ** Whitespace and the ROUGE metric *)

Lemma lstrip_empty_iff s : lstrip s = "" ↔ all_space s = true.
Proof.
  induction s as [|c s IH]; cbn; [done|].
  destruct (isspace c); cbn; [done|]. split; discriminate.
Qed.

Lemma rstrip_empty_iff s : rstrip s = "" ↔ all_space s = true.
Proof.
  induction s as [|c s IH]; cbn; [done|].
  destruct (isspace c); cbn.
  - destruct (rstrip s) eqn:Hr; cbn.
    + split; [intros _; by apply IH|done].
    + split; [discriminate|]. intros Hs. apply IH in Hs. discriminate.
  - split; discriminate.
Qed.

Lemma all_space_lstrip s : all_space (lstrip s) = all_space s.
Proof.
  induction s as [|c s IH]; cbn; [done|].
  destruct (isspace c) eqn:Hc; cbn; [done|]. by rewrite Hc.
Qed.

Lemma strip_empty_iff s : strip s = "" ↔ all_space s = true.
Proof. unfold strip. by rewrite rstrip_empty_iff, all_space_lstrip. Qed.

Lemma all_space_collapse_ws in_run s :
  all_space (collapse_ws in_run s) = all_space s.
Proof.
  revert in_run. induction s as [|c s IH]; intros in_run; cbn; [done|].
  destruct (isspace c) eqn:Hc; cbn.
  - destruct in_run; [apply IH|]. cbn. apply IH.
  - by rewrite Hc.
Qed.

Lemma strip_collapse_empty s :
  String.eqb (strip s) "" = String.eqb (strip (collapse_ws false s)) "".
Proof.
  destruct (String.eqb (strip s) "") eqn:Hs.
  - apply String.eqb_eq, strip_empty_iff in Hs. symmetry.
    apply String.eqb_eq, strip_empty_iff. by rewrite all_space_collapse_ws.
  - symmetry. apply String.eqb_neq. intros Hc. apply String.eqb_neq in Hs.
    apply Hs, strip_empty_iff. apply strip_empty_iff in Hc.
    by rewrite all_space_collapse_ws in Hc.
Qed.

(** X25: the ROUGE metric does not see the layout of whitespace: two
    responses with the same cleaned text, against two references with the
    same cleaned text that are both empty or both not, get the same result
    through the same call. *)
Theorem rouge_whitespace_insensitive ext q s s' a a' :
  clean_text (PyStr s) = clean_text (PyStr s') →
  clean_text (PyStr a) = clean_text (PyStr a') →
  (a = "" ↔ a' = "") →
  evaluate (RougeMetric ext) q (PyStr s) (PyStr a)
  = evaluate (RougeMetric ext) q (PyStr s') (PyStr a').
Proof.
  intros Hs Ha Hempty. cbn [evaluate RougeMetric].
  unfold RougeMetric_evaluate.
  assert (validate_inputs q (PyStr s) (PyStr a)
          = validate_inputs q (PyStr s') (PyStr a')) as <- by reflexivity.
  destruct (validate_inputs q (PyStr s) (PyStr a)) as [[]|e];
    [|by rewrite !traced_bind_pure_Raise].
  rewrite !traced_bind_pure_Ok. cbn [truthy].
  assert (String.eqb a "" = String.eqb a' "") as <-.
  { destruct (String.eqb a "") eqn:H1.
    - apply String.eqb_eq, Hempty in H1. by subst a'.
    - symmetry. apply String.eqb_neq. intros H2%Hempty.
      apply String.eqb_neq in H1. done. }
  destruct (negb (String.eqb a "")); cbn [negb]; [|done].
  cbn [py_strip]. rewrite !traced_bind_pure_Ok. cbn [truthy].
  cbn [clean_text] in Hs. injection Hs as Hs.
  rewrite (strip_collapse_empty s), (strip_collapse_empty s'), Hs.
  destruct (negb (String.eqb (strip (collapse_ws false s')) "")); [|done].
  cbn [negb]. cbn [clean_text]. rewrite !traced_bind_pure_Ok, Hs.
  cbn [clean_text] in Ha. injection Ha as Ha. by rewrite Ha.
Qed.

Lemma rouge_whitespace_insensitive_witness :
  evaluate (RougeMetric unavailable) (PyStr "q") (PyStr "a  b") (PyStr "x")
  = evaluate (RougeMetric unavailable) (PyStr "q") (PyStr " a b ")
      (PyStr "x ").
Proof.
  apply (rouge_whitespace_insensitive unavailable).
  - reflexivity.
  - reflexivity.
  - split; discriminate.
Defined.

(** ** From a metric's score to its status *)

Lemma replace_score_suffix n :
  contains_char "_" n = false → str_replace (n +:+ "_score") "_score" "" = n.
Proof.
  unfold str_replace. induction n as [|c n IH]; [reflexivity|].
  cbn [contains_char]. intros [Hc Hn]%orb_false_elim.
  rewrite append_cons. cbn [replace_from String.prefix].
  destruct (ascii_dec "_" c) as [<-|_]; [by cbn in Hc|].
  by rewrite IH.
Qed.

(** X26: for a metric whose name has no underscore, the key under which
    its score is recorded is a score column, the scorer recovers the
    metric's name from it, and the status goes to [<name>_status]. *)
Theorem metric_status_column n :
  contains_char "_" n = false →
  endswith (n +:+ "_" +:+ "score") "_score" = true ∧
  str_replace (n +:+ "_" +:+ "score") "_score" "" = n ∧
  status_col (n +:+ "_" +:+ "score") = n +:+ "_status".
Proof.
  intros Hn. change (n +:+ "_" +:+ "score") with (n +:+ "_score").
  unfold status_col. rewrite (replace_score_suffix n Hn).
  split; [apply endswith_app|done].
Qed.

Lemma metric_status_column_witness :
  endswith (name (RougeMetric unavailable) +:+ "_" +:+ "score") "_score"
  = true ∧
  str_replace (name (RougeMetric unavailable) +:+ "_" +:+ "score") "_score" ""
  = "rouge" ∧
  status_col (name (RougeMetric unavailable) +:+ "_" +:+ "score")
  = "rouge" +:+ "_status".
Proof.
  apply (metric_status_column "rouge"). reflexivity.
Defined.

(** ** A failing metric in the row of the pipeline *)






